(** * zhipi: the homework-grading pipeline and its OCR adapters

    A shallow embedding of [main.py] (upload, [process_homework],
    [regrade_records]) and of [ocr_adapters.py] (the adapter factory and the
    Tencent TC3 request signature), followed by the properties of the
    specification that concern them. *)

From Stdlib Require Import ZArith NArith String Ascii List Lia DecimalString.
From stdpp Require Import gmap strings list.

Open Scope string_scope.
Open Scope list_scope.

(** ** Python built-ins used by the two modules *)

Module Py.

(** The newline character of the Python literals ["\n"]. *)
Definition nl : string := String (ascii_of_nat 10) EmptyString.

(** [sep.join(parts)]. *)
Fixpoint join (sep : string) (parts : list string) : string :=
  match parts with
  | [] => ""
  | [p] => p
  | p :: rest => p +:+ sep +:+ join sep rest
  end.

(** [str(n)] for a non-negative [int]. *)
Definition str_of_nat (n : nat) : string :=
  NilZero.string_of_uint (Nat.to_uint n).

(** [str(z)] for an [int]. *)
Definition str_of_Z (z : Z) : string :=
  NilZero.string_of_int (Z.to_int z).

(** A Python [str] is kept as the [string] of its UTF-8 bytes; [decode]
    gives back its code points (a byte that does not start a well-formed
    sequence is kept as it is). *)
Definition cont (c : ascii) : N := N.land (N_of_ascii c) 63.

Fixpoint decode (s : string) : list N :=
  match s with
  | EmptyString => []
  | String c0 s1 =>
    let b0 := N_of_ascii c0 in
    if (b0 <? 192)%N then b0 :: decode s1
    else match s1 with
    | EmptyString => [b0]
    | String c1 s2 =>
      if (b0 <? 224)%N then
        (N.land b0 31 * 64 + cont c1)%N :: decode s2
      else match s2 with
      | EmptyString => [b0; N_of_ascii c1]
      | String c2 s3 =>
        if (b0 <? 240)%N then
          (N.land b0 15 * 4096 + cont c1 * 64 + cont c2)%N :: decode s3
        else match s3 with
        | EmptyString => [b0; N_of_ascii c1; N_of_ascii c2]
        | String c3 s4 =>
          (N.land b0 7 * 262144 + cont c1 * 4096 + cont c2 * 64 + cont c3)%N
            :: decode s4
        end
      end
    end
  end.

(** [ch.isspace()]: the characters [str.strip()] removes. *)
Definition isspace (cp : N) : bool :=
  ((9 <=? cp) && (cp <=? 13) || (28 <=? cp) && (cp <=? 32)
   || (cp =? 133) || (cp =? 160) || (cp =? 5760)
   || (8192 <=? cp) && (cp <=? 8202)
   || (cp =? 8232) || (cp =? 8233) || (cp =? 8239) || (cp =? 8287)
   || (cp =? 12288))%N.

Fixpoint lstrip (l : list N) : list N :=
  match l with
  | [] => []
  | cp :: rest => if isspace cp then lstrip rest else l
  end.

(** [s.strip()], on code points. *)
Definition strip (l : list N) : list N := rev (lstrip (rev (lstrip l))).

(** The UTF-8 bytes of a code point. *)
Definition byte (n : N) : ascii := ascii_of_N n.

Definition encode1 (cp : N) : string :=
  if (cp <? 128)%N then String (byte cp) ""
  else if (cp <? 2048)%N then
    String (byte (192 + cp / 64)) (String (byte (128 + cp mod 64)) "")
  else if (cp <? 65536)%N then
    String (byte (224 + cp / 4096))
      (String (byte (128 + (cp / 64) mod 64))
         (String (byte (128 + cp mod 64)) ""))
  else
    String (byte (240 + cp / 262144))
      (String (byte (128 + (cp / 4096) mod 64))
         (String (byte (128 + (cp / 64) mod 64))
            (String (byte (128 + cp mod 64)) ""))).

Definition encode (l : list N) : string :=
  fold_right (fun cp s => encode1 cp +:+ s) "" l.

(** [s.strip()] on a [str]. *)
Definition str_strip (s : string) : string := encode (strip (decode s)).

(** Truth value of [text.strip()]: a non-empty string is true. *)
Definition strip_truthy (text : string) : bool :=
  match strip (decode text) with [] => false | _ :: _ => true end.

(** [s.lower()], as far as a comparison with an ASCII word can see: the
    letters A-Z are mapped to a-z, every other byte is kept.  (The only
    character outside ASCII whose lower case is ASCII is the Kelvin sign,
    which gives [k]; the words compared with below have no [k].) *)
Definition lower_ascii (c : ascii) : ascii :=
  let n := nat_of_ascii c in
  if (65 <=? n)%nat && (n <=? 90)%nat then ascii_of_nat (n + 32) else c.

Fixpoint lower (s : string) : string :=
  match s with
  | EmptyString => EmptyString
  | String c s' => String (lower_ascii c) (lower s')
  end.

(** [c in s] for a one-character string [c]. *)
Fixpoint contains_char (c : ascii) (s : string) : bool :=
  match s with
  | EmptyString => false
  | String c' s' => bool_decide (c = c') || contains_char c s'
  end.

Definition slash : ascii := ascii_of_nat 47.
Definition backslash_char : ascii := ascii_of_nat 92.

(** Exceptions, with the text [str(e)] gives.  [Unmodelled] is none of
    them: see [Main.unmodelled]. *)
Inductive exn_class :=
| Exception | ValueError | TypeError | NotImplementedError
| FileNotFoundError | KeyError | HTTPException (status_code : nat)
| OtherError
| Unmodelled.

Inductive exn := Raise (cls : exn_class) (msg : string).

Definition str_of_exn (e : exn) : string :=
  match e with Raise _ msg => msg end.

End Py.

(** ** hashlib and hmac: SHA-256 and HMAC-SHA256 (FIPS 180-4, RFC 2104) *)

Module Hashlib.

Local Open Scope N_scope.

(** [s.encode("utf-8")]: the bytes of a [str]. *)
Definition encode_utf8 (s : string) : list N :=
  map N_of_ascii (list_ascii_of_string s).

Definition w32 (x : N) : N := N.land x 0xffffffff.
Definition add32 (x y : N) : N := w32 (x + y).
Definition rotr (n x : N) : N :=
  N.lor (N.shiftr x n) (w32 (N.shiftl x (32 - n))).

Definition Ch (x y z : N) : N :=
  N.lxor (N.land x y) (N.land (N.lxor x 0xffffffff) z).
Definition Maj (x y z : N) : N :=
  N.lxor (N.lxor (N.land x y) (N.land x z)) (N.land y z).
Definition Sigma0 (x : N) : N :=
  N.lxor (N.lxor (rotr 2 x) (rotr 13 x)) (rotr 22 x).
Definition Sigma1 (x : N) : N :=
  N.lxor (N.lxor (rotr 6 x) (rotr 11 x)) (rotr 25 x).
Definition sigma0 (x : N) : N :=
  N.lxor (N.lxor (rotr 7 x) (rotr 18 x)) (N.shiftr x 3).
Definition sigma1 (x : N) : N :=
  N.lxor (N.lxor (rotr 17 x) (rotr 19 x)) (N.shiftr x 10).

(** The constants of FIPS 180-4 are fractional parts of roots of the first
    primes: for the initial hash value the first 32 bits of the square
    roots of the first 8 primes, for the round constants those of the cube
    roots of the first 64. *)
Definition is_prime (n : nat) : bool :=
  forallb (λ d, negb (n mod d =? 0)%nat) (seq 2 (n - 2)).

Definition first_primes (k : nat) : list N :=
  map N.of_nat (take k (filter (λ n, is_prime n = true) (seq 2 400))).

(** The integer cube root, bit by bit from bit [n] down. *)
Fixpoint cube_root_bits (n : nat) (x acc : N) : N :=
  match n with
  | O => acc
  | S n' =>
    let c := acc + 2 ^ N.of_nat n' in
    cube_root_bits n' x (if c * c * c <=? x then c else acc)
  end.

Definition H256 : list N :=
  map (λ p, w32 (N.sqrt (p * 2 ^ 64))) (first_primes 8).

Definition K256 : list N :=
  map (λ p, w32 (cube_root_bits 36 (p * 2 ^ 96) 0)) (first_primes 64).

(** Big-endian bytes of a number, [n] of them. *)
Fixpoint be_bytes (n : nat) (x : N) : list N :=
  match n with
  | O => []
  | S n' => N.land (N.shiftr x (8 * N.of_nat n')) 255 :: be_bytes n' x
  end.

Definition be_word (bs : list N) : N :=
  fold_left (λ acc b, acc * 256 + b) bs 0.

Definition pad (msg : list N) : list N :=
  let len := length msg in
  msg ++ [128] ++ repeat 0 ((119 - len mod 64) mod 64)%nat
      ++ be_bytes 8 (8 * N.of_nat len).

(** The list cut into pieces of [size] elements. *)
Fixpoint chunks (fuel size : nat) {A} (l : list A) : list (list A) :=
  match fuel, l with
  | O, _ | _, [] => []
  | S fuel', _ => take size l :: chunks fuel' size (drop size l)
  end.

(** The message schedule, latest word first. *)
Fixpoint extend (k : nat) (ws : list N) : list N :=
  match k with
  | O => ws
  | S k' =>
    let x i := nth i ws 0 in
    extend k'
      (add32 (add32 (sigma1 (x 1%nat)) (x 6%nat))
             (add32 (sigma0 (x 14%nat)) (x 15%nat)) :: ws)
  end.

Definition schedule (block : list N) : list N :=
  rev (extend 48 (rev (map be_word (chunks 16 4 block)))).

Definition round (st : list N) (kw : N * N) : list N :=
  match st with
  | [a; b; c; d; e; f; g; h] =>
    let t1 :=
      add32 (add32 (add32 h (Sigma1 e)) (add32 (Ch e f g) kw.1)) kw.2 in
    let t2 := add32 (Sigma0 a) (Maj a b c) in
    [add32 t1 t2; a; b; c; add32 d t1; e; f; g]
  | _ => st
  end.

Definition compress (st block : list N) : list N :=
  zip_with add32 st (fold_left round (zip K256 (schedule block)) st).

(** [hashlib.sha256(data).digest()]. *)
Definition sha256 (data : list N) : list N :=
  let padded := pad data in
  mjoin (map (be_bytes 4)
              (fold_left compress (chunks (length padded) 64 padded) H256)).

Definition hex_digit (d : N) : ascii :=
  ascii_of_N (if d <? 10 then 48 + d else 87 + d).

(** Lower-case hexadecimal of a number, [n] digits. *)
Fixpoint hex (n : nat) (x : N) : string :=
  match n with
  | O => ""
  | S n' =>
    String (hex_digit (N.land (N.shiftr x (4 * N.of_nat n')) 15)) (hex n' x)
  end.

(** [.hexdigest()] of a digest. *)
Definition hexdigest (digest : list N) : string :=
  fold_right (λ b s, hex 2 b +:+ s) "" digest.

(** [hmac.new(key, msg, hashlib.sha256).digest()]. *)
Definition hmac_sha256 (key msg : list N) : list N :=
  let key' := if (64 <? length key)%nat then sha256 key else key in
  let block := key' ++ repeat 0 (64 - length key')%nat in
  sha256 (map (N.lxor 92) block ++ sha256 (map (N.lxor 54) block ++ msg)).

End Hashlib.

(** ** ocr_adapters.py *)

Module OcrAdapters.
Import Py Hashlib.

Definition dquote : string := String (ascii_of_nat 34) EmptyString.
Definition backslash : string := String (ascii_of_nat 92) EmptyString.

(** One character of a JSON string as [json.dumps] writes it (with
    [ensure_ascii], the default): quote and backslash escaped, the short
    escapes, everything else outside space..~ as [\uXXXX], beyond the
    basic plane as a surrogate pair. *)
Definition json_char (cp : N) : string :=
  (if cp =? 34 then backslash +:+ dquote
   else if cp =? 92 then backslash +:+ backslash
   else if cp =? 8 then backslash +:+ "b"
   else if cp =? 12 then backslash +:+ "f"
   else if cp =? 10 then backslash +:+ "n"
   else if cp =? 13 then backslash +:+ "r"
   else if cp =? 9 then backslash +:+ "t"
   else if (32 <=? cp) && (cp <=? 126) then String (ascii_of_N cp) ""
   else if cp <? 65536 then backslash +:+ "u" +:+ hex 4 cp
   else
     backslash +:+ "u"
       +:+ hex 4 (N.lor 55296 (N.land (N.shiftr (cp - 65536) 10) 1023))
       +:+ backslash +:+ "u"
       +:+ hex 4 (N.lor 56320 (N.land (cp - 65536) 1023)))%N.

Definition json_string (s : string) : string :=
  dquote +:+ fold_right (λ cp out, json_char cp +:+ out) "" (decode s)
    +:+ dquote.

(** [json.dumps(params)] for a [dict] from [str] to [str], in insertion
    order. *)
Definition json_dumps (params : list (string * string)) : string :=
  "{" +:+ join ", "
            (map (λ kv, json_string kv.1 +:+ ": " +:+ json_string kv.2)
               params)
      +:+ "}".

Definition pad2 (z : Z) : string :=
  (if z <? 10 then "0" +:+ str_of_Z z else str_of_Z z)%Z.

(** [time.strftime("%Y-%m-%d", time.gmtime(timestamp))]: the civil date of
    the day [timestamp // 86400] after 1970-01-01 (the year is written
    without padding, which matters before the year 1000 only). *)
Definition gmtime_date (timestamp : Z) : string :=
  (let z := timestamp / 86400 + 719468 in
   let era := z / 146097 in
   let doe := z - era * 146097 in
   let yoe := (doe - doe / 1460 + doe / 36524 - doe / 146096) / 365 in
   let doy := doe - (365 * yoe + yoe / 4 - yoe / 100) in
   let mp := (5 * doy + 2) / 153 in
   let d := doy - (153 * mp + 2) / 5 + 1 in
   let m := if mp <? 10 then mp + 3 else mp - 9 in
   let y := yoe + era * 400 + (if m <=? 2 then 1 else 0) in
   str_of_Z y +:+ "-" +:+ pad2 m +:+ "-" +:+ pad2 d)%Z.

(** The three adapter classes.  A credential is [None] when the factory
    found no such keyword argument. *)
Record TencentOCRAdapter := {
  secret_id : option string;
  secret_key : option string;
  region : string;
  endpoint : string;
  service : string;
  version : string
}.

(** [TencentOCRAdapter.__init__]. *)
Definition TencentOCRAdapter_init (secret_id secret_key : option string)
    (region : string) : TencentOCRAdapter :=
  {| secret_id := secret_id; secret_key := secret_key; region := region;
     endpoint := "ocr.tencentcloudapi.com"; service := "ocr";
     version := "2018-11-19" |}.

Record BaiduOCRAdapter := {
  api_key : option string;
  baidu_secret_key : option string;
  access_token : option string
}.

Record AliOCRAdapter := {
  access_key_id : option string;
  access_key_secret : option string
}.

Inductive OCRAdapter :=
| Tencent (self : TencentOCRAdapter)
| Baidu (self : BaiduOCRAdapter)
| Ali (self : AliOCRAdapter).

(** [str + None]. *)
Definition concat_none : exn :=
  Raise TypeError
    ("can only concatenate str (not " +:+ dquote +:+ "NoneType" +:+ dquote
       +:+ ") to str").

(** The local [_hmac_sha256(key, msg)] of [_sign]. *)
Definition _hmac_sha256 (key : list N) (msg : string) : list N :=
  hmac_sha256 key (encode_utf8 msg).

(** [TencentOCRAdapter._sign(self, params, timestamp)]. *)
Definition _sign (self : TencentOCRAdapter) (params : list (string * string))
    (timestamp : Z) : exn + string :=
  let http_request_method := "POST" in
  let canonical_uri := "/" in
  let canonical_querystring := "" in
  let canonical_headers :=
    "content-type:application/json" +:+ nl +:+ "host:" +:+ endpoint self
      +:+ nl in
  let signed_headers := "content-type;host" in
  let payload := json_dumps params in
  let hashed_request_payload :=
    hexdigest (sha256 (encode_utf8 payload)) in
  let canonical_request :=
    http_request_method +:+ nl +:+ canonical_uri +:+ nl
      +:+ canonical_querystring +:+ nl +:+ canonical_headers +:+ nl
      +:+ signed_headers +:+ nl +:+ hashed_request_payload in
  let algorithm := "TC3-HMAC-SHA256" in
  let date := gmtime_date timestamp in
  let credential_scope :=
    date +:+ "/" +:+ service self +:+ "/tc3_request" in
  let hashed_canonical_request :=
    hexdigest (sha256 (encode_utf8 canonical_request)) in
  let string_to_sign :=
    algorithm +:+ nl +:+ str_of_Z timestamp +:+ nl +:+ credential_scope
      +:+ nl +:+ hashed_canonical_request in
  match secret_key self with
  | None => inl concat_none
  | Some key =>
    let secret_date := _hmac_sha256 (encode_utf8 ("TC3" +:+ key)) date in
    let secret_service := _hmac_sha256 secret_date (service self) in
    let secret_signing := _hmac_sha256 secret_service "tc3_request" in
    let signature :=
      hexdigest (hmac_sha256 secret_signing (encode_utf8 string_to_sign)) in
    match secret_id self with
    | None => inl concat_none
    | Some sid =>
      inr (algorithm +:+ " " +:+ "Credential=" +:+ sid +:+ "/"
             +:+ credential_scope +:+ ", " +:+ "SignedHeaders="
             +:+ signed_headers +:+ ", " +:+ "Signature=" +:+ signature)
    end
  end.

(** The headers [TencentOCRAdapter.recognize] sends at time [timestamp]
    ([int(time.time())]) with [params = {"ImageBase64": image_base64}]. *)
Definition tencent_headers (self : TencentOCRAdapter) (timestamp : Z)
    (image_base64 : string) : exn + list (string * string) :=
  match _sign self [("ImageBase64", image_base64)] timestamp with
  | inl e => inl e
  | inr authorization =>
    inr [("Authorization", authorization);
         ("Content-Type", "application/json");
         ("Host", endpoint self);
         ("X-TC-Action", "GeneralBasicOCR");
         ("X-TC-Timestamp", str_of_Z timestamp);
         ("X-TC-Version", version self);
         ("X-TC-Region", region self)]
  end.

(** [adapter.recognize(image_base64)].  For the two providers that are
    called over the network, [provider] stands for the exchange and the
    reading of the answer: the text found or the exception raised. *)
Definition recognize (adapter : OCRAdapter) (timestamp : Z)
    (provider : exn + string) (image_base64 : string) : exn + string :=
  match adapter with
  | Tencent self =>
    match tencent_headers self timestamp image_base64 with
    | inl e => inl e
    | inr _ => provider
    end
  | Baidu _ => provider
  | Ali _ => inl (Raise NotImplementedError "阿里云 OCR 适配器待实现")
  end.

(** [create_ocr_adapter(provider, **kwargs)]. *)
Definition create_ocr_adapter (provider : string)
    (kwargs : gmap string string) : exn + OCRAdapter :=
  let provider := lower provider in
  if bool_decide (provider = "tencent") then
    inr (Tencent
           (TencentOCRAdapter_init (kwargs !! "secret_id")
              (kwargs !! "secret_key")
              (default "ap-guangzhou" (kwargs !! "region"))))
  else if bool_decide (provider = "baidu") then
    inr (Baidu {| api_key := kwargs !! "api_key";
                  baidu_secret_key := kwargs !! "secret_key";
                  access_token := None |})
  else if bool_decide (provider = "ali") then
    inr (Ali {| access_key_id := kwargs !! "access_key_id";
                access_key_secret := kwargs !! "access_key_secret" |})
  else
    inl (Raise ValueError
           ("不支持的 OCR 提供商: " +:+ provider
              +:+ "，支持的有: tencent, baidu, ali")).

End OcrAdapters.

(** ** main.py: records, the plan directory and the three operations *)

Module Main.
Import Py.

(** A record document ([records/<id>.json]).  The first eight keys are the
    ones [upload_homework] writes; [ocr_text], [error] and
    [previous_result] are added by later writes and absent until then. *)
Record record := {
  id : string;
  student : string;
  images : list string;
  status : string;
  result : string;
  regrade_count : nat;
  created_at : nat;
  updated_at : nat;
  ocr_text : option string;
  error : option string;
  previous_result : option string
}.

(** [record[key] = value] for the keys the code assigns. *)
Definition set_status (v : string) (r : record) : record :=
  {| id := id r; student := student r; images := images r; status := v;
     result := result r; regrade_count := regrade_count r;
     created_at := created_at r; updated_at := updated_at r;
     ocr_text := ocr_text r; error := error r;
     previous_result := previous_result r |}.

Definition set_result (v : string) (r : record) : record :=
  {| id := id r; student := student r; images := images r;
     status := status r; result := v; regrade_count := regrade_count r;
     created_at := created_at r; updated_at := updated_at r;
     ocr_text := ocr_text r; error := error r;
     previous_result := previous_result r |}.

Definition set_regrade_count (v : nat) (r : record) : record :=
  {| id := id r; student := student r; images := images r;
     status := status r; result := result r; regrade_count := v;
     created_at := created_at r; updated_at := updated_at r;
     ocr_text := ocr_text r; error := error r;
     previous_result := previous_result r |}.

Definition set_updated_at (v : nat) (r : record) : record :=
  {| id := id r; student := student r; images := images r;
     status := status r; result := result r;
     regrade_count := regrade_count r; created_at := created_at r;
     updated_at := v; ocr_text := ocr_text r; error := error r;
     previous_result := previous_result r |}.

Definition set_ocr_text (v : string) (r : record) : record :=
  {| id := id r; student := student r; images := images r;
     status := status r; result := result r;
     regrade_count := regrade_count r; created_at := created_at r;
     updated_at := updated_at r; ocr_text := Some v; error := error r;
     previous_result := previous_result r |}.

Definition set_error (v : string) (r : record) : record :=
  {| id := id r; student := student r; images := images r;
     status := status r; result := result r;
     regrade_count := regrade_count r; created_at := created_at r;
     updated_at := updated_at r; ocr_text := ocr_text r; error := Some v;
     previous_result := previous_result r |}.

Definition set_previous_result (v : string) (r : record) : record :=
  {| id := id r; student := student r; images := images r;
     status := status r; result := result r;
     regrade_count := regrade_count r; created_at := created_at r;
     updated_at := updated_at r; ocr_text := ocr_text r; error := error r;
     previous_result := Some v |}.

(** The plan document ([config.json]), as [create_plan] writes it; the
    fallback of [config.get("prompt", ...)] is for a document without that
    key, which the program never writes. *)
Record plan := {
  plan_name : string;
  description : string;
  prompt : string;
  plan_created_at : nat
}.

(** The keys a regrade or a pipeline run assigns on the document it has
    loaded.  The plan document has none of them until a request names it as
    if it were a record (with an id such as [../config]); from then on it
    carries them next to its own keys. *)
Record marks := {
  m_status : option string;
  m_result : option string;
  m_regrade_count : option nat;
  m_updated_at : option nat;
  m_error : option string;
  m_previous_result : option string
}.

Definition no_marks : marks :=
  {| m_status := None; m_result := None; m_regrade_count := None;
     m_updated_at := None; m_error := None; m_previous_result := None |}.

(** One [save_json] of a record document: the record id, the status the
    stored document had just before (if there was one) and the document
    written.  The journal is ghost state; the code keeps no such log. *)
Record write := {
  w_id : string;
  w_before : option string;
  w_after : record
}.

(** *** The services outside the process

    What one run of the pipeline meets: the DeepSeek key of the
    configuration, whether [Config.get_ocr_adapter()] raises, what reading
    and recognising the image at position [idx] (path [image_rel_path])
    gives, text or a raised exception, and what the POST to DeepSeek with
    a given message content gives. *)
Record Response := {
  status_code : nat;
  text : string;
  (** [response.json()["choices"][0]["message"]["content"]] *)
  content : exn + string
}.

Record Env := {
  DEEPSEEK_API_KEY : string;
  get_ocr_adapter : option exn;
  recognize : nat → string → exn + string;
  requests_post : string → exn + Response
}.

(** An uploaded file, by what the handler looks at:
    [Path(image.filename).suffix.lower()] and [len(content)]. *)
Record UploadFile := {
  file_ext : string;
  size : nat
}.

(** *** What is under way

    [process_homework] is a plain function handed to
    [background_tasks.add_task], so each call runs in a worker thread while
    the request handlers go on being served; nothing locks the files.  An
    [activity] is a call of [process_homework] or a request handler between
    two of its file-system operations, with the local variables it holds:

    - [RunLoaded]: [process_homework] has loaded the record and is about
      to save it as [processing];
    - [RunMarked]: it has saved it and is about to load the plan document
      and get the adapter;
    - [RunRecognising]: it is in the image loop, at position [idx], with
      [recognized_texts] so far;
    - [RunFinishing]: it is about to save the record as [done] or, in the
      handler, as [failed];
    - [PlanRunLoaded], [PlanRunMarked], [PlanRunFinishing]: the same for a
      call whose id names the plan document;
    - [UploadSaving]: [upload_homework] is in its loop over the files;
    - [RegradeTesting]: [regrade_records] is about to test the next id;
    - [RegradeLoaded], [RegradePlanLoaded]: it has loaded the document the
      id names and is about to save it. *)
Inductive activity :=
| RunLoaded (env : Env) (stem : string) (loaded : record)
| RunMarked (env : Env) (stem : string) (record : record)
| RunRecognising (env : Env) (stem : string) (record : record)
    (prompt : string) (idx : nat) (rest : list string)
    (recognized_texts : list string)
| RunFinishing (stem : string) (record : record)
    (outcome : exn + string * string)
| PlanRunLoaded (env : Env) (loaded : marks)
| PlanRunMarked (env : Env) (record : marks)
| PlanRunFinishing (record : marks) (e : exn)
| UploadSaving (record_id student : string) (idx : nat)
    (rest : list UploadFile) (saved_images : list string)
| RegradeTesting (rest : list string)
| RegradeLoaded (record_id stem : string) (loaded : record)
    (rest : list string)
| RegradePlanLoaded (record_id : string) (loaded : marks)
    (rest : list string)
| Finished.

(** The directory of one plan, with the process-wide state the operations
    touch: the plan document and the keys it was given when taken for a
    record, the record documents by the stem of their file
    ([records/<stem>.json]), the image files by path relative to the plan
    directory, the background tasks that are scheduled and have not started
    yet (each a [process_homework] call for the id as it was given), the
    calls and handlers under way, the clock read by [datetime.now()], and
    the path of the directory itself ([Config.DATA_DIR / plan_name]). *)
Record World := {
  plan_dir : string;
  config : option plan;
  plan_marks : marks;
  records : gmap string record;
  image_files : gset string;
  tasks : list string;
  running : list activity;
  clock : nat;
  journal : list write
}.

Definition set_records (f : gmap string record → gmap string record)
    (jn : list write) (w : World) : World :=
  {| plan_dir := plan_dir w; config := config w;
     plan_marks := plan_marks w; records := f (records w);
     image_files := image_files w; tasks := tasks w;
     running := running w; clock := clock w;
     journal := journal w ++ jn |}.

Definition set_image_files (f : gset string → gset string) (w : World)
    : World :=
  {| plan_dir := plan_dir w; config := config w;
     plan_marks := plan_marks w; records := records w;
     image_files := f (image_files w); tasks := tasks w;
     running := running w; clock := clock w; journal := journal w |}.

Definition set_tasks (f : list string → list string) (w : World) : World :=
  {| plan_dir := plan_dir w; config := config w;
     plan_marks := plan_marks w; records := records w;
     image_files := image_files w; tasks := f (tasks w);
     running := running w; clock := clock w; journal := journal w |}.

Definition set_plan_marks (m : marks) (w : World) : World :=
  {| plan_dir := plan_dir w; config := config w; plan_marks := m;
     records := records w; image_files := image_files w; tasks := tasks w;
     running := running w; clock := clock w; journal := journal w |}.

Definition set_running (f : list activity → list activity) (w : World)
    : World :=
  {| plan_dir := plan_dir w; config := config w;
     plan_marks := plan_marks w; records := records w;
     image_files := image_files w; tasks := tasks w;
     running := f (running w); clock := clock w; journal := journal w |}.

Definition tick (w : World) : World :=
  {| plan_dir := plan_dir w; config := config w;
     plan_marks := plan_marks w; records := records w;
     image_files := image_files w; tasks := tasks w;
     running := running w; clock := S (clock w); journal := journal w |}.

(** *** State and exceptions

    A computation reads and changes the world and ends with a value or a
    raised exception; what it changed before raising stays changed. *)
Definition M (A : Type) : Type := World → (exn + A) * World.

#[global] Instance M_ret : MRet M := λ A a w, (inr a, w).
#[global] Instance M_bind : MBind M := λ A B k m w,
  match m w with
  | (inl e, w') => (inl e, w')
  | (inr a, w') => k a w'
  end.

Definition raise {A} (e : exn) : M A := λ w, (inl e, w).

(** [try: body  except Exception as e: handler(e)]. *)
Definition try_except {A} (body : M A) (handler : exn → M A) : M A := λ w,
  match body w with
  | (inl e, w') => handler e w'
  | (inr a, w') => (inr a, w')
  end.

Definition gets {A} (f : World → A) : M A := λ w, (inr (f w), w).
Definition modify (f : World → World) : M unit := λ w, (inr tt, f w).

(** [datetime.now()]: successive readings differ. *)
Definition now : M nat := λ w, (inr (clock w), tick w).

(** [save_json(record_path, data)] for the record file
    [records/<record_id>.json]. *)
Definition save_json (record_id : string) (data : record) : M unit :=
  λ w, (inr tt,
        set_records (insert record_id data)
          [{| w_id := record_id;
              w_before := status <$> records w !! record_id;
              w_after := data |}] w).

(** [load_json] of a record document; [open] raises when there is none. *)
Definition load_json (record_id : string) : M record := λ w,
  match records w !! record_id with
  | Some r => (inr r, w)
  | None =>
    (inl (Raise FileNotFoundError
            ("[Errno 2] No such file or directory: '" +:+ plan_dir w
               +:+ "/records/" +:+ record_id +:+ ".json'")), w)
  end.

(** [load_json(PathHelper.get_config_path(plan_name))]. *)
Definition load_config : M plan := λ w,
  match config w with
  | Some c => (inr c, w)
  | None =>
    (inl (Raise FileNotFoundError
            ("[Errno 2] No such file or directory: '" +:+ plan_dir w
               +:+ "/config.json'")), w)
  end.

(** [background_tasks.add_task(process_homework, plan_name, record_id)]. *)
Definition add_task (record_id : string) : M unit :=
  modify (set_tasks (λ q, q ++ [record_id])).

(** *** Paths

    [PathHelper.get_record_path(plan_name, record_id)] is
    [Config.DATA_DIR / plan_name / "records" / f"{record_id}.json"], and a
    regrade request may hold any text as an id.  [pathlib] splits the text
    at [/], drops the empty and the [.] components and keeps [..]; the
    system then follows the components from the records directory.  The
    plan directory is taken to hold what the program puts there:
    [config.json], [images/] and [records/], the last two without
    subdirectories (POSIX paths, no symbolic links).  A path then names a
    record document, the plan document, or nothing.  A path that is
    absolute, that climbs out of the plan directory or that ends in
    [images/] leads to files that are not described here: for it
    [get_record_path] gives [None]. *)
Inductive target :=
| RecordFile (stem : string)
| ConfigFile
| NoFile.

#[global] Instance target_eq_dec : EqDecision target :=
  ltac:(solve_decision).

Inductive place := InRecords | InPlan | InImages.

(** [s.split("/")], with [name] the component being read. *)
Fixpoint split_slash (s name : string) : list string :=
  match s with
  | EmptyString => [name]
  | String c s' =>
    if bool_decide (c = slash) then name :: split_slash s' ""
    else split_slash s' (name +:+ String c "")
  end.

(** The components [pathlib] keeps. *)
Definition parts (s : string) : list string :=
  filter (λ name, name ≠ "" ∧ name ≠ ".") (split_slash s "").

(** The file name without its [.json]. *)
Definition stem_of (name : string) : string :=
  substring 0 (String.length name - 5) name.

(** Following the components.  The last one ends in [.json], so it is a
    file name; a name before it has to be a directory. *)
Fixpoint walk (here : place) (names : list string) : option target :=
  match names with
  | [] => Some NoFile
  | [name] =>
    match here with
    | InRecords => Some (RecordFile (stem_of name))
    | InPlan =>
      Some (if bool_decide (name = "config.json") then ConfigFile
            else NoFile)
    | InImages => None
    end
  | name :: rest =>
    if bool_decide (name = "..") then
      match here with
      | InPlan => None
      | _ => walk InPlan rest
      end
    else
      match here with
      | InPlan =>
        if bool_decide (name = "records") then walk InRecords rest
        else if bool_decide (name = "images") then walk InImages rest
        else Some NoFile
      | _ => Some NoFile
      end
  end.

(** With a NUL character in the path [exists()] is false and [open]
    raises, as for a file that is not there. *)
Definition get_record_path (record_id : string) : option target :=
  let s := record_id +:+ ".json" in
  if contains_char (ascii_of_nat 0) s then Some NoFile
  else
    match s with
    | EmptyString => Some NoFile
    | String c _ =>
      if bool_decide (c = slash) then None else walk InRecords (parts s)
    end.

(** The end of a computation that has left what is described here.  It is
    no exception of the program and no handler of the program sees it. *)
Definition unmodelled : exn := Raise Unmodelled "".

(** *** process_homework *)

Definition section_label (idx : nat) : string :=
  "【图片 " +:+ str_of_nat idx +:+ "】" +:+ nl.

(** The [for idx, image_rel_path in enumerate(record["images"], 1)] loop,
    with [recognized_texts] as accumulator. *)
Fixpoint ocr_loop (env : Env) (files : gset string) (idx : nat)
    (image_paths : list string) (recognized_texts : list string)
    : list string :=
  match image_paths with
  | [] => recognized_texts
  | image_rel_path :: rest =>
    ocr_loop env files (S idx) rest
      (if bool_decide (image_rel_path ∈ files) then
         match recognize env idx image_rel_path with
         | inr text =>
           if strip_truthy text then
             recognized_texts ++ [section_label idx +:+ text]
           else recognized_texts
         | inl e =>
           recognized_texts
             ++ [section_label idx +:+ "(识别失败: " +:+ str_of_exn e +:+ ")"]
         end
       else recognized_texts)
  end.

Definition full_prompt (prompt all_text : string) : string :=
  prompt +:+ nl +:+ nl +:+ "【学生作业内容】" +:+ nl +:+ all_text +:+ nl.

(** The [try] block from the first [save_json] on; [record] is the loaded
    document with [status] and [updated_at] already assigned. *)
Definition grade (env : Env) (record_id : string) (record : record)
    : M unit :=
  save_json record_id record;;
  config ← load_config;
  let prompt := prompt config in
  match get_ocr_adapter env with Some e => raise e | None => mret tt end;;
  files ← gets image_files;
  let recognized_texts := ocr_loop env files 1 (images record) [] in
  match recognized_texts with
  | [] => raise (Raise Exception "OCR 未识别到任何文字内容")
  | _ :: _ =>
    let all_text := join (nl +:+ nl) recognized_texts in
    if bool_decide (DEEPSEEK_API_KEY env = "") then
      raise (Raise Exception "DEEPSEEK_API_KEY 未配置")
    else
      match requests_post env (full_prompt prompt all_text) with
      | inl e => raise e
      | inr response =>
        if bool_decide (status_code response = 200) then
          match content response with
          | inl e => raise e
          | inr correction =>
            t ← now;
            save_json record_id
              (set_updated_at t
                 (set_result correction
                    (set_ocr_text all_text (set_status "done" record))))
          end
        else
          raise (Raise Exception
                   ("DeepSeek API 调用失败: "
                      +:+ str_of_nat (status_code response) +:+ " - "
                      +:+ text response))
      end
  end.

(** The [except Exception as e] handler, when [record] is bound. *)
Definition mark_failed (record_id : string) (record : record) (e : exn)
    : M unit :=
  t ← now;
  save_json record_id
    (set_updated_at t
       (set_error (str_of_exn e) (set_status "failed" record))).

(** [process_homework(plan_name, record_id)] for an id that names the
    record file [records/<record_id>.json], run from its first statement
    to its last with nothing else in between.  When the record document
    cannot be loaded, the handler finds [record] unbound, its own [try]
    swallows that, and nothing is written. *)
Definition process_homework (env : Env) (record_id : string) : M unit :=
  λ w,
    match load_json record_id w with
    | (inl _, w') => (inr tt, w')
    | (inr loaded, w') =>
      (t ← now;
       let record := set_updated_at t (set_status "processing" loaded) in
       try_except (grade env record_id record)
         (mark_failed record_id record)) w'
    end.

(** The same call when the id names the plan document: [record] is that
    document, the first [save_json] writes it back with [status] and
    [updated_at], and after the adapter is obtained [record["images"]]
    raises [KeyError], there being no such key; the handler writes the
    document back as [failed]. *)
Definition mark_processing (t : nat) (m : marks) : marks :=
  {| m_status := Some "processing"; m_result := m_result m;
     m_regrade_count := m_regrade_count m; m_updated_at := Some t;
     m_error := m_error m; m_previous_result := m_previous_result m |}.

Definition mark_plan_failed (t : nat) (e : exn) (m : marks) : marks :=
  {| m_status := Some "failed"; m_result := m_result m;
     m_regrade_count := m_regrade_count m; m_updated_at := Some t;
     m_error := Some (str_of_exn e);
     m_previous_result := m_previous_result m |}.

Definition plan_run_error (env : Env) : exn :=
  match get_ocr_adapter env with
  | Some e => e
  | None => Raise KeyError "'images'"
  end.

Definition process_plan_document (env : Env) : M unit := λ w,
  match load_config w with
  | (inl _, w') => (inr tt, w')
  | (inr _, w') =>
    (loaded ← gets plan_marks;
     t ← now;
     let record := mark_processing t loaded in
     modify (set_plan_marks record);;
     t ← now;
     modify (set_plan_marks (mark_plan_failed t (plan_run_error env) record)))
      w'
  end.

(** [process_homework(plan_name, record_id)] for the id as it was queued:
    the path is made from the id, and the rest goes by what it names. *)
Definition run_task (env : Env) (record_id : string) : M unit :=
  match get_record_path record_id with
  | None => raise unmodelled
  | Some NoFile => mret tt
  | Some (RecordFile stem) => process_homework env stem
  | Some ConfigFile => process_plan_document env
  end.

(** *** upload_homework *)

Definition MAX_IMAGE_SIZE : nat := 10 * 1024 * 1024.
Definition MAX_IMAGES_PER_UPLOAD : nat := 10.
Definition ALLOWED_EXTENSIONS : list string :=
  [".jpg"; ".jpeg"; ".png"; ".webp"].

(** The [for idx, image in enumerate(images, 1)] loop; the [detail] of the
    HTTP errors is not modelled. *)
Fixpoint save_images (record_id : string) (idx : nat)
    (uploads : list UploadFile) (saved_images : list string)
    : M (list string) :=
  match uploads with
  | [] => mret saved_images
  | image :: rest =>
    if negb (bool_decide (file_ext image ∈ ALLOWED_EXTENSIONS)) then
      raise (Raise (HTTPException 400) "")
    else if (MAX_IMAGE_SIZE <? size image)%nat then
      raise (Raise (HTTPException 400) "")
    else
      let image_filename :=
        record_id +:+ "_" +:+ str_of_nat idx +:+ file_ext image in
      modify (set_image_files (λ fs, {[ "images/" +:+ image_filename ]} ∪ fs));;
      save_images record_id (S idx) rest
        (saved_images ++ ["images/" +:+ image_filename])
  end.

(** [upload_homework]; [record_id] is [str(int(time.time() * 1000))], read
    from the wall clock by the handler.  Returns the record id. *)
Definition upload_homework (record_id student : string)
    (uploads : list UploadFile) : M string :=
  cfg ← gets config;
  match cfg with
  | None => raise (Raise (HTTPException 404) "")
  | Some _ =>
    if negb (strip_truthy student) then raise (Raise (HTTPException 400) "")
    else if (MAX_IMAGES_PER_UPLOAD <? length uploads)%nat then
      raise (Raise (HTTPException 400) "")
    else
      saved_images ← save_images record_id 1 uploads [];
      created ← now;
      updated ← now;
      save_json record_id
        {| id := record_id; student := str_strip student;
           images := saved_images; status := "pending"; result := "";
           regrade_count := 0; created_at := created;
           updated_at := updated; ocr_text := None; error := None;
           previous_result := None |};;
      add_task record_id;;
      mret record_id
  end.

(** *** regrade_records *)

(** The assignments of the loop body on the plan document:
    [record.get("result")] is true for a text that is not empty, and
    [record.get("regrade_count", 0)] is 0 without the key. *)
Definition reset_marks (t : nat) (m : marks) : marks :=
  {| m_status := Some "pending"; m_result := Some "";
     m_regrade_count := Some (default 0 (m_regrade_count m) + 1);
     m_updated_at := Some t; m_error := m_error m;
     m_previous_result :=
       match m_result m with
       | Some r => if bool_decide (r = "") then m_previous_result m
                   else Some r
       | None => m_previous_result m
       end |}.

(** The [for record_id in record_ids] loop with its counter.  The path
    made from the id is tested with [exists()], and the document it names
    is loaded, reset and saved whatever it is; the task is queued under
    the id as given.  Reading [record.get("result")] and
    [record.get("regrade_count", 0)] finds the key in every record
    document the program wrote. *)
Fixpoint regrade_loop (record_ids : list string) (count : nat) : M nat :=
  match record_ids with
  | [] => mret count
  | record_id :: rest =>
    match get_record_path record_id with
    | None => raise unmodelled
    | Some NoFile => regrade_loop rest count
    | Some ConfigFile =>
      cfg ← gets config;
      match cfg with
      | None => regrade_loop rest count
      | Some _ =>
        loaded ← gets plan_marks;
        t ← now;
        modify (set_plan_marks (reset_marks t loaded));;
        add_task record_id;;
        regrade_loop rest (count + 1)
      end
    | Some (RecordFile stem) =>
      found ← gets (λ w, records w !! stem);
      match found with
      | None => regrade_loop rest count
      | Some loaded =>
        let record :=
          if bool_decide (result loaded = "") then loaded
          else set_previous_result (result loaded) loaded in
        t ← now;
        save_json stem
          (set_updated_at t
             (set_regrade_count (regrade_count record + 1)
                (set_result "" (set_status "pending" record))));;
        add_task record_id;;
        regrade_loop rest (count + 1)
      end
    end
  end.

(** [f.stem] for the file [<stem>.json] of [records_dir.glob("*.json")]:
    the file [.json] alone has no suffix to take off. *)
Definition glob_stem (stem : string) : string :=
  if bool_decide (stem = "") then ".json" else stem.

(** [regrade_records]; [request_record_ids] is [request.record_ids].  The
    records directory exists whenever the plan does ([create_plan] makes
    it before the plan document).  Returns the count. *)
Definition regrade_records (request_record_ids : option (list string))
    : M nat :=
  cfg ← gets config;
  match cfg with
  | None => raise (Raise (HTTPException 404) "")
  | Some _ =>
    stored ← gets (λ w, glob_stem <$> (map_to_list (records w)).*1);
    let record_ids :=
      match request_record_ids with
      | Some (x :: l) => x :: l
      | _ => stored
      end in
    regrade_loop record_ids 0
  end.

(** *** One file-system operation at a time

    What an activity does up to and including its next file-system
    operation (or, at the end of the image loop, the call of the grading
    model), and what it is then.  [None]: the activity has ended, or the
    next path leads out of what is described here. *)
Definition recognise_one (env : Env) (files : gset string) (idx : nat)
    (image_rel_path : string) (recognized_texts : list string)
    : list string :=
  if bool_decide (image_rel_path ∈ files) then
    match recognize env idx image_rel_path with
    | inr text =>
      if strip_truthy text then
        recognized_texts ++ [section_label idx +:+ text]
      else recognized_texts
    | inl e =>
      recognized_texts
        ++ [section_label idx +:+ "(识别失败: " +:+ str_of_exn e +:+ ")"]
    end
  else recognized_texts.

(** From the end of the image loop to the answer of the grading model: the
    exception raised, or the joined text and the completion. *)
Definition request_grading (env : Env) (prompt : string)
    (recognized_texts : list string) : exn + string * string :=
  match recognized_texts with
  | [] => inl (Raise Exception "OCR 未识别到任何文字内容")
  | _ :: _ =>
    let all_text := join (nl +:+ nl) recognized_texts in
    if bool_decide (DEEPSEEK_API_KEY env = "") then
      inl (Raise Exception "DEEPSEEK_API_KEY 未配置")
    else
      match requests_post env (full_prompt prompt all_text) with
      | inl e => inl e
      | inr response =>
        if bool_decide (status_code response = 200) then
          match content response with
          | inl e => inl e
          | inr correction => inr (all_text, correction)
          end
        else
          inl (Raise Exception
                 ("DeepSeek API 调用失败: "
                    +:+ str_of_nat (status_code response) +:+ " - "
                    +:+ text response))
      end
  end.

(** The last [save_json] of a run: of the success path, or of the
    handler. *)
Definition finish_run (stem : string) (record : record)
    (outcome : exn + string * string) : M unit :=
  match outcome with
  | inl e => mark_failed stem record e
  | inr (all_text, correction) =>
    t ← now;
    save_json stem
      (set_updated_at t
         (set_result correction
            (set_ocr_text all_text (set_status "done" record))))
  end.

Definition step (a : activity) (w : World) : option (activity * World) :=
  match a with
  | RunLoaded env stem loaded =>
    let record := set_updated_at (clock w) (set_status "processing" loaded) in
    Some (RunMarked env stem record, (save_json stem record (tick w)).2)
  | RunMarked env stem record =>
    Some (match load_config w with
          | (inl e, _) => RunFinishing stem record (inl e)
          | (inr config, _) =>
            match get_ocr_adapter env with
            | Some e => RunFinishing stem record (inl e)
            | None =>
              RunRecognising env stem record (prompt config) 1
                (images record) []
            end
          end, w)
  | RunRecognising env stem record prompt idx (image_rel_path :: rest)
      recognized_texts =>
    Some (RunRecognising env stem record prompt (S idx) rest
            (recognise_one env (image_files w) idx image_rel_path
               recognized_texts), w)
  | RunRecognising env stem record prompt idx [] recognized_texts =>
    Some (RunFinishing stem record
            (request_grading env prompt recognized_texts), w)
  | RunFinishing stem record outcome =>
    Some (Finished, (finish_run stem record outcome w).2)
  | PlanRunLoaded env loaded =>
    let record := mark_processing (clock w) loaded in
    Some (PlanRunMarked env record, set_plan_marks record (tick w))
  | PlanRunMarked env record =>
    Some (PlanRunFinishing record
            match load_config w with
            | (inl e, _) => e
            | (inr _, _) => plan_run_error env
            end, w)
  | PlanRunFinishing record e =>
    Some (Finished,
          set_plan_marks (mark_plan_failed (clock w) e record) (tick w))
  | UploadSaving record_id student idx (image :: rest) saved_images =>
    if negb (bool_decide (file_ext image ∈ ALLOWED_EXTENSIONS)) then
      Some (Finished, w)
    else if (MAX_IMAGE_SIZE <? size image)%nat then Some (Finished, w)
    else
      let image_filename :=
        record_id +:+ "_" +:+ str_of_nat idx +:+ file_ext image in
      Some (UploadSaving record_id student (S idx) rest
              (saved_images ++ ["images/" +:+ image_filename]),
            set_image_files (λ fs, {[ "images/" +:+ image_filename ]} ∪ fs)
              w)
  | UploadSaving record_id student idx [] saved_images =>
    Some (Finished,
          ((created ← now;
            updated ← now;
            save_json record_id
              {| id := record_id; student := str_strip student;
                 images := saved_images; status := "pending"; result := "";
                 regrade_count := 0; created_at := created;
                 updated_at := updated; ocr_text := None; error := None;
                 previous_result := None |};;
            add_task record_id) w).2)
  | RegradeTesting [] => Some (Finished, w)
  | RegradeTesting (record_id :: rest) =>
    match get_record_path record_id with
    | None => None
    | Some NoFile => Some (RegradeTesting rest, w)
    | Some ConfigFile =>
      Some (match config w with
            | None => RegradeTesting rest
            | Some _ => RegradePlanLoaded record_id (plan_marks w) rest
            end, w)
    | Some (RecordFile stem) =>
      Some (match records w !! stem with
            | None => RegradeTesting rest
            | Some loaded => RegradeLoaded record_id stem loaded rest
            end, w)
    end
  | RegradeLoaded record_id stem loaded rest =>
    let record :=
      if bool_decide (result loaded = "") then loaded
      else set_previous_result (result loaded) loaded in
    Some (RegradeTesting rest,
          ((save_json stem
              (set_updated_at (clock w)
                 (set_regrade_count (regrade_count record + 1)
                    (set_result "" (set_status "pending" record))));;
            add_task record_id) (tick w)).2)
  | RegradePlanLoaded record_id loaded rest =>
    Some (RegradeTesting rest,
          (add_task record_id
             (set_plan_marks (reset_marks (clock w) loaded) (tick w))).2)
  | Finished => None
  end.

(** *** Runs of the system

    An operation is a request or the run of one scheduled background task
    (any of them: the scheduler promises no order), either carried out
    from beginning to end with nothing in between ([OpUpload],
    [OpRegrade], [OpProcess]), or begun ([OpUploadBegin],
    [OpRegradeBegin], [OpProcessBegin]) and then taken forward one
    file-system operation at a time ([OpStep], by position among the
    activities), in any order with the others. *)
Inductive Op :=
| OpUpload (record_id student : string) (uploads : list UploadFile)
| OpRegrade (request_record_ids : option (list string))
| OpProcess (record_id : string) (env : Env)
| OpUploadBegin (record_id student : string) (uploads : list UploadFile)
| OpRegradeBegin (request_record_ids : option (list string))
| OpProcessBegin (record_id : string) (env : Env)
| OpStep (n : nat).

Fixpoint remove_one (x : string) (q : list string) : list string :=
  match q with
  | [] => []
  | y :: q' => if bool_decide (x = y) then q' else y :: remove_one x q'
  end.

Definition spawn (a : activity) (w : World) : World :=
  set_running (λ l, l ++ [a]) w.

(** What the handlers and the call do before their first activity: the
    checks of [upload_homework], the check and the listing of
    [regrade_records], the [load_json] of [process_homework]. *)
Definition begin_upload (record_id student : string)
    (uploads : list UploadFile) (w : World) : World :=
  match config w with
  | None => w
  | Some _ =>
    if negb (strip_truthy student) then w
    else if (MAX_IMAGES_PER_UPLOAD <? length uploads)%nat then w
    else spawn (UploadSaving record_id student 1 uploads []) w
  end.

Definition begin_regrade (request_record_ids : option (list string))
    (w : World) : World :=
  match config w with
  | None => w
  | Some _ =>
    spawn (RegradeTesting
             match request_record_ids with
             | Some (x :: l) => x :: l
             | _ => glob_stem <$> (map_to_list (records w)).*1
             end) w
  end.

Definition begin_process (env : Env) (record_id : string) (w : World)
    : option World :=
  match get_record_path record_id with
  | None => None
  | Some NoFile => Some w
  | Some ConfigFile =>
    Some match config w with
         | None => w
         | Some _ => spawn (PlanRunLoaded env (plan_marks w)) w
         end
  | Some (RecordFile stem) =>
    Some match records w !! stem with
         | None => w
         | Some loaded => spawn (RunLoaded env stem loaded) w
         end
  end.

Definition exec (op : Op) (w : World) : option World :=
  match op with
  | OpUpload record_id student uploads =>
    Some (upload_homework record_id student uploads w).2
  | OpRegrade ids =>
    match regrade_records ids w with
    | (inl (Raise Unmodelled _), _) => None
    | (_, w') => Some w'
    end
  | OpProcess record_id env =>
    if bool_decide (record_id ∈ tasks w) then
      match run_task env record_id (set_tasks (remove_one record_id) w) with
      | (inl _, _) => None
      | (inr _, w') => Some w'
      end
    else None
  | OpUploadBegin record_id student uploads =>
    Some (begin_upload record_id student uploads w)
  | OpRegradeBegin ids => Some (begin_regrade ids w)
  | OpProcessBegin record_id env =>
    if bool_decide (record_id ∈ tasks w) then
      begin_process env record_id (set_tasks (remove_one record_id) w)
    else None
  | OpStep n =>
    match running w !! n with
    | None => None
    | Some a =>
      match step a w with
      | None => None
      | Some (a', w') => Some (set_running (λ l, <[n := a']> l) w')
      end
    end
  end.

Fixpoint run (ops : list Op) (w : World) : option World :=
  match ops with
  | [] => Some w
  | op :: rest =>
    match exec op w with
    | Some w' => run rest w'
    | None => None
    end
  end.

(** The plan directory before any upload. *)
Definition init (dir : string) (cfg : option plan) : World :=
  {| plan_dir := dir; config := cfg; plan_marks := no_marks; records := ∅;
     image_files := ∅; tasks := []; running := []; clock := 0;
     journal := [] |}.

End Main.

(** ** main.py: reading, listing and deleting records *)

Module Records.
Import Py Main.

(** [get_record]: only the record path is looked at, not the plan. *)
Definition get_record (record_id : string) : M record :=
  found ← gets (λ w, records w !! record_id);
  match found with
  | None => raise (Raise (HTTPException 404) "")
  | Some record => mret record
  end.

(** The [for image_rel_path in record.get("images", [])] loop of
    [delete_record]: a file that exists is unlinked. *)
Fixpoint unlink_images (image_paths : list string) : M unit :=
  match image_paths with
  | [] => mret tt
  | image_rel_path :: rest =>
    modify (set_image_files
              (λ fs, if bool_decide (image_rel_path ∈ fs)
                     then fs ∖ {[image_rel_path]} else fs));;
    unlink_images rest
  end.

(** [delete_record]; returns the [deleted] part of the answer: the id, the
    student and the number of images of the record. *)
Definition delete_record (record_id : string) : M (string * string * nat) :=
  cfg ← gets config;
  match cfg with
  | None => raise (Raise (HTTPException 404) "")
  | Some _ =>
    found ← gets (λ w, records w !! record_id);
    match found with
    | None => raise (Raise (HTTPException 404) "")
    | Some record =>
      unlink_images (images record);;
      modify (set_records (delete record_id) []);;
      mret (record_id, student record, length (images record))
    end
  end.

(** [l.sort(key=..., reverse=True)]: descending by key, entries with equal
    keys in the order they had. *)
Fixpoint insert_desc {A} (key : A → nat) (x : A) (l : list A) : list A :=
  match l with
  | [] => [x]
  | y :: l' =>
    if (key y <=? key x)%nat then x :: l else y :: insert_desc key x l'
  end.

Definition sort_desc {A} (key : A → nat) (l : list A) : list A :=
  foldr (insert_desc key) [] l.

(** An entry of the list view of [get_records]. *)
Record entry := {
  e_id : string;
  e_student : string;
  e_status : string;
  e_regrade_count : nat;
  e_created_at : nat;
  e_updated_at : nat
}.

Definition list_view (r : record) : entry :=
  {| e_id := id r; e_student := student r; e_status := status r;
     e_regrade_count := regrade_count r; e_created_at := created_at r;
     e_updated_at := updated_at r |}.

(** [get_records]: the stored documents in the order the directory gives
    them, then sorted by creation time, newest first. *)
Definition get_records : M (list entry) :=
  cfg ← gets config;
  match cfg with
  | None => raise (Raise (HTTPException 404) "")
  | Some _ =>
    stored ← gets (λ w, (map_to_list (records w)).*2);
    mret (sort_desc e_created_at (list_view <$> stored))
  end.

(** The [stats] of [get_plan]: a counter per status next to [total]. *)
Definition initial_stats : gmap string nat :=
  list_to_map [("total", 0); ("pending", 0); ("processing", 0); ("done", 0);
               ("failed", 0)].

(** [stats["total"] += 1; stats[status] = stats.get(status, 0) + 1]. *)
Definition count_status (stats : gmap string nat) (r : record)
    : gmap string nat :=
  let stats := <["total" := default 0 (stats !! "total") + 1]> stats in
  <[status r := default 0 (stats !! status r) + 1]> stats.

Definition status_stats (docs : gmap string record) : gmap string nat :=
  foldl count_status initial_stats (map_to_list docs).*2.

End Records.

(** ** main.py: the configuration and its OCR adapter *)

Module Settings.
Import Py OcrAdapters.

(** The attributes of [Config] that the adapter methods read, and the
    lazily created adapter. *)
Record Config := {
  OCR_PROVIDER : string;
  TENCENT_SECRET_ID : string;
  TENCENT_SECRET_KEY : string;
  TENCENT_REGION : string;
  BAIDU_API_KEY : string;
  BAIDU_SECRET_KEY : string;
  ALI_ACCESS_KEY_ID : string;
  ALI_ACCESS_KEY_SECRET : string;
  _ocr_adapter : option OCRAdapter
}.

Definition set_ocr_adapter (a : OCRAdapter) (cls : Config) : Config :=
  {| OCR_PROVIDER := OCR_PROVIDER cls;
     TENCENT_SECRET_ID := TENCENT_SECRET_ID cls;
     TENCENT_SECRET_KEY := TENCENT_SECRET_KEY cls;
     TENCENT_REGION := TENCENT_REGION cls;
     BAIDU_API_KEY := BAIDU_API_KEY cls;
     BAIDU_SECRET_KEY := BAIDU_SECRET_KEY cls;
     ALI_ACCESS_KEY_ID := ALI_ACCESS_KEY_ID cls;
     ALI_ACCESS_KEY_SECRET := ALI_ACCESS_KEY_SECRET cls;
     _ocr_adapter := Some a |}.

(** [os.getenv(key, default)]. *)
Definition getenv (environ : gmap string string) (key default_ : string)
    : string :=
  default default_ (environ !! key).

(** The class attributes as the class body computes them from the
    environment. *)
Definition load (environ : gmap string string) : Config :=
  {| OCR_PROVIDER := lower (getenv environ "OCR_PROVIDER" "tencent");
     TENCENT_SECRET_ID := getenv environ "TENCENT_SECRET_ID" "";
     TENCENT_SECRET_KEY := getenv environ "TENCENT_SECRET_KEY" "";
     TENCENT_REGION := getenv environ "TENCENT_REGION" "ap-guangzhou";
     BAIDU_API_KEY := getenv environ "BAIDU_API_KEY" "";
     BAIDU_SECRET_KEY := getenv environ "BAIDU_SECRET_KEY" "";
     ALI_ACCESS_KEY_ID := getenv environ "ALI_ACCESS_KEY_ID" "";
     ALI_ACCESS_KEY_SECRET := getenv environ "ALI_ACCESS_KEY_SECRET" "";
     _ocr_adapter := None |}.

(** Keyword arguments as a [dict]. *)
Definition kwargs (l : list (string * string)) : gmap string string :=
  list_to_map l.

(** [Config._create_ocr_adapter]. *)
Definition _create_ocr_adapter (cls : Config) : exn + OCRAdapter :=
  if bool_decide (OCR_PROVIDER cls = "tencent") then
    if bool_decide (TENCENT_SECRET_ID cls = "")
       || bool_decide (TENCENT_SECRET_KEY cls = "") then
      inl (Raise ValueError
             "腾讯云 OCR 配置不完整，请设置 TENCENT_SECRET_ID 和 TENCENT_SECRET_KEY")
    else
      create_ocr_adapter "tencent"
        (kwargs [("secret_id", TENCENT_SECRET_ID cls);
                 ("secret_key", TENCENT_SECRET_KEY cls);
                 ("region", TENCENT_REGION cls)])
  else if bool_decide (OCR_PROVIDER cls = "baidu") then
    if bool_decide (BAIDU_API_KEY cls = "")
       || bool_decide (BAIDU_SECRET_KEY cls = "") then
      inl (Raise ValueError
             "百度 OCR 配置不完整，请设置 BAIDU_API_KEY 和 BAIDU_SECRET_KEY")
    else
      create_ocr_adapter "baidu"
        (kwargs [("api_key", BAIDU_API_KEY cls);
                 ("secret_key", BAIDU_SECRET_KEY cls)])
  else if bool_decide (OCR_PROVIDER cls = "ali") then
    if bool_decide (ALI_ACCESS_KEY_ID cls = "")
       || bool_decide (ALI_ACCESS_KEY_SECRET cls = "") then
      inl (Raise ValueError
             "阿里云 OCR 配置不完整，请设置 ALI_ACCESS_KEY_ID 和 ALI_ACCESS_KEY_SECRET")
    else
      create_ocr_adapter "ali"
        (kwargs [("access_key_id", ALI_ACCESS_KEY_ID cls);
                 ("access_key_secret", ALI_ACCESS_KEY_SECRET cls)])
  else
    inl (Raise ValueError ("不支持的 OCR 提供商: " +:+ OCR_PROVIDER cls)).

(** [Config.get_ocr_adapter]: the adapter and the class afterwards. *)
Definition get_ocr_adapter (cls : Config) : (exn + OCRAdapter) * Config :=
  match _ocr_adapter cls with
  | Some a => (inr a, cls)
  | None =>
    match _create_ocr_adapter cls with
    | inl e => (inl e, cls)
    | inr a => (inr a, set_ocr_adapter a cls)
    end
  end.

(** The adapter part of [Config.init]: a failure is printed, not raised. *)
Definition init (cls : Config) : Config :=
  match _create_ocr_adapter cls with
  | inl _ => cls
  | inr a => set_ocr_adapter a cls
  end.

End Settings.

(** ** main.py: the plans *)

Module Plans.
Import Py Main Records.

(** The plan document with the key [update_prompt] adds. *)
Record config_doc := {
  base : plan;
  config_updated_at : option nat
}.

(** A plan directory: its [config.json], if written, and the documents of
    its [records/]. *)
Record PlanDir := {
  config_json : option config_doc;
  record_docs : gmap string record
}.

(** The data directory: the plan directories by name, and the clock.  A
    name is the name of its directory and nothing else (not [.] or [..]). *)
Record Data := {
  plan_dirs : gmap string PlanDir;
  data_clock : nat
}.

(** The body of a [POST /plans] request. *)
Record PlanCreate := {
  pc_plan_name : string;
  pc_description : string;
  pc_prompt : string
}.

(** [PathHelper.get_config_path(plan_name).exists()]. *)
Definition config_of (plan_name : string) (d : Data) : option config_doc :=
  pd ← plan_dirs d !! plan_name; config_json pd.

(** The documents under [PathHelper.get_records_dir(plan_name)]. *)
Definition records_of (plan_name : string) (d : Data) : gmap string record :=
  match plan_dirs d !! plan_name with
  | Some pd => record_docs pd
  | None => ∅
  end.

(** [save_json(config_path, config)], with the directories in place. *)
Definition save_config (plan_name : string) (c : config_doc) (d : Data)
    : Data :=
  {| plan_dirs :=
       <[plan_name := {| config_json := Some c;
                         record_docs := records_of plan_name d |}]>
         (plan_dirs d);
     data_clock := data_clock d |}.

Definition tick_data (d : Data) : Data :=
  {| plan_dirs := plan_dirs d; data_clock := S (data_clock d) |}.

(** [create_plan]; returns the document written. *)
Definition create_plan (req : PlanCreate) (d : Data)
    : (exn + config_doc) * Data :=
  let plan_name := str_strip (pc_plan_name req) in
  if bool_decide (plan_name = "") then (inl (Raise (HTTPException 400) ""), d)
  else if contains_char slash plan_name
          || contains_char backslash_char plan_name then
    (inl (Raise (HTTPException 400) ""), d)
  else
    match config_of plan_name d with
    | Some _ => (inl (Raise (HTTPException 400) ""), d)
    | None =>
      let config_data :=
        {| base := {| plan_name := plan_name;
                      description := pc_description req;
                      prompt := pc_prompt req;
                      plan_created_at := data_clock d |};
           config_updated_at := None |} in
      (inr config_data, save_config plan_name config_data (tick_data d))
    end.

(** [get_plan]: the document and the statistics of the records. *)
Definition get_plan (plan_name : string) (d : Data)
    : exn + config_doc * gmap string nat :=
  match config_of plan_name d with
  | None => inl (Raise (HTTPException 404) "")
  | Some c => inr (c, status_stats (records_of plan_name d))
  end.

(** [update_prompt]; returns the document written. *)
Definition update_prompt (plan_name new_prompt : string) (d : Data)
    : (exn + config_doc) * Data :=
  match config_of plan_name d with
  | None => (inl (Raise (HTTPException 404) ""), d)
  | Some c =>
    let c' :=
      {| base := {| plan_name := Main.plan_name (base c);
                    description := description (base c);
                    prompt := new_prompt;
                    plan_created_at := plan_created_at (base c) |};
         config_updated_at := Some (data_clock d) |} in
    (inr c', save_config plan_name c' (tick_data d))
  end.

(** An entry of [get_plans]. *)
Record plan_entry := {
  pe_plan_name : string;
  pe_description : string;
  pe_prompt : string;
  pe_created_at : nat;
  pe_record_count : nat
}.

(** [get_plans]: the directories that hold a plan document, newest
    first. *)
Definition get_plans (d : Data) : list plan_entry :=
  sort_desc pe_created_at
    (omap (λ kv : string * PlanDir,
             c ← config_json kv.2;
             Some {| pe_plan_name := plan_name (base c);
                     pe_description := description (base c);
                     pe_prompt := prompt (base c);
                     pe_created_at := plan_created_at (base c);
                     pe_record_count := stdpp.base.size (record_docs kv.2) |})
          (map_to_list (plan_dirs d))).

End Plans.

(** * Notions used in the statements *)

Import Py Hashlib OcrAdapters Main.

(** The result of the steps after the record is marked: the exception that
    ends the run, or the joined OCR text with the completion. *)
Definition outcome (env : Env) (w : World) (r : record)
    : exn + string * string :=
  match config w with
  | None =>
    inl (Raise FileNotFoundError
           ("[Errno 2] No such file or directory: '" +:+ plan_dir w
              +:+ "/config.json'"))
  | Some c =>
    match get_ocr_adapter env with
    | Some e => inl e
    | None =>
      match ocr_loop env (image_files w) 1 (images r) [] with
      | [] => inl (Raise Exception "OCR 未识别到任何文字内容")
      | t :: ts =>
        if bool_decide (DEEPSEEK_API_KEY env = "") then
          inl (Raise Exception "DEEPSEEK_API_KEY 未配置")
        else
          match requests_post env
                  (full_prompt (prompt c) (join (nl +:+ nl) (t :: ts))) with
          | inl e => inl e
          | inr response =>
            if bool_decide (status_code response = 200) then
              match content response with
              | inl e => inl e
              | inr correction => inr (join (nl +:+ nl) (t :: ts), correction)
              end
            else
              inl (Raise Exception
                     ("DeepSeek API 调用失败: "
                        +:+ str_of_nat (status_code response) +:+ " - "
                        +:+ text response))
          end
      end
    end
  end.

Definition marked (w : World) (r : record) : record :=
  set_updated_at (clock w) (set_status "processing" r).

Definition final (env : Env) (w : World) (r : record) : record :=
  match outcome env w r with
  | inl e =>
    set_updated_at (S (clock w))
      (set_error (str_of_exn e) (set_status "failed" (marked w r)))
  | inr (all_text, correction) =>
    set_updated_at (S (clock w))
      (set_result correction
         (set_ocr_text all_text (set_status "done" (marked w r))))
  end.

Definition after_process (env : Env) (record_id : string) (w : World)
    (r : record) : World :=
  {| plan_dir := plan_dir w; config := config w;
     plan_marks := plan_marks w;
     records := <[record_id := final env w r]> (records w);
     image_files := image_files w; tasks := tasks w;
     running := running w; clock := S (S (clock w));
     journal :=
       journal w
         ++ [ {| w_id := record_id; w_before := Some (status r);
                 w_after := marked w r |};
              {| w_id := record_id; w_before := Some "processing";
                 w_after := final env w r |} ] |}.

Ltac pipeline_leaf :=
  cbn -[ocr_loop join full_prompt str_of_nat String.append];
  unfold mbind, M_bind, mret, M_ret, now, save_json, set_records, tick;
  cbn -[ocr_loop join full_prompt str_of_nat String.append];
  rewrite ?lookup_insert_eq, ?insert_insert_eq, <- ?app_assoc;
  reflexivity.

(** Text that is empty or whitespace only. *)
Definition blank (text : string) : Prop :=
  Forall (λ cp, isspace cp = true) (decode text).

(** What the image at position [idx] adds to the combined text, case by
    case: nothing when its file is missing or its text is blank, a labelled
    section for text, a labelled placeholder when recognition raised. *)
Definition contribution (env : Env) (files : gset string) (idx : nat)
    (image_rel_path : string) : list string :=
  if bool_decide (image_rel_path ∈ files) then
    match recognize env idx image_rel_path with
    | inr text =>
      if strip_truthy text then [section_label idx +:+ text] else []
    | inl e =>
      [section_label idx +:+ "(识别失败: " +:+ str_of_exn e +:+ ")"]
    end
  else [].

Fixpoint contributions (env : Env) (files : gset string) (idx : nat)
    (image_paths : list string) : list string :=
  match image_paths with
  | [] => []
  | p :: rest =>
    contribution env files idx p ++ contributions env files (S idx) rest
  end.

(** One of the four statuses of the state machine. *)
Definition known_status (s : string) : Prop :=
  s = "pending" ∨ s = "processing" ∨ s = "done" ∨ s = "failed".

Definition known (w : World) : Prop :=
  ∀ rid r, records w !! rid = Some r → known_status (status r).

(** The status a write finds: none when there is no document yet. *)
Definition found (before : option string) : Prop :=
  match before with
  | None => True
  | Some s => known_status s
  end.

(** A write that ends a run; a write before position [i] that began a
    run on the record [rid]. *)
Definition ends_run (wr : write) : Prop :=
  status (w_after wr) = "done" ∨ status (w_after wr) = "failed".

Definition begun_before (j : list write) (i : nat) (rid : string) : Prop :=
  ∃ k wr0, (k < i)%nat ∧ j !! k = Some wr0 ∧ w_id wr0 = rid
           ∧ status (w_after wr0) = "processing".

Definition ended_after_begin (j : list write) : Prop :=
  ∀ i wr, j !! i = Some wr → ends_run wr → begun_before j i (w_id wr).

(** [w'] comes from [w] by writes that satisfy [P], with the activities
    left as they are and no document removed. *)
Definition follows (P : write → Prop) (w w' : World) : Prop :=
  known w →
  known w'
  ∧ running w' = running w
  ∧ (∀ rid, is_Some (records w !! rid) → is_Some (records w' !! rid))
  ∧ (ended_after_begin (journal w) → ended_after_begin (journal w'))
  ∧ ∃ ws, journal w' = journal w ++ ws
          ∧ Forall P ws
          ∧ ∀ rid r, records w' !! rid = Some r →
                     records w !! rid = Some r
                     ∨ ∃ wr, wr ∈ ws ∧ w_after wr = r.

Definition writes (P : write → Prop) {A} (m : M A) : Prop :=
  ∀ w, follows P w (m w).2.

(** What the two handlers write, and what a run with the services [env]
    writes. *)
Definition reset_write (wr : write) : Prop :=
  found (w_before wr)
  ∧ status (w_after wr) = "pending" ∧ result (w_after wr) = "".

Definition run_write (env : Env) (wr : write) : Prop :=
  (∃ s, w_before wr = Some s ∧ known_status s)
  ∧ (status (w_after wr) = "processing"
     ∨ status (w_after wr) = "failed" ∧ error (w_after wr) ≠ None
     ∨ status (w_after wr) = "done"
       ∧ ∃ sent response,
           requests_post env sent = inr response
           ∧ content response = inr (result (w_after wr))).

(** The writes of each operation; those of a step belong to the operation
    that began the activity. *)
Definition written_by (op : Op) (wr : write) : Prop :=
  match op with
  | OpUpload _ _ _ | OpUploadBegin _ _ _ | OpRegrade _ | OpRegradeBegin _ =>
    reset_write wr
  | OpProcess _ env | OpProcessBegin _ env => run_write env wr
  | OpStep _ => False
  end.

(** The writes an activity may still make are accepted by [P]. *)
Definition allowed (P : write → Prop) (a : activity) : Prop :=
  match a with
  | RunLoaded env _ _ | RunMarked env _ _
  | RunRecognising env _ _ _ _ _ _ =>
    ∀ wr, run_write env wr → P wr
  | RunFinishing _ _ outcome =>
    ∃ env,
      (∀ wr, run_write env wr → P wr)
      ∧ match outcome with
        | inl _ => True
        | inr (_, correction) =>
          ∃ sent response,
            requests_post env sent = inr response
            ∧ content response = inr correction
        end
  | UploadSaving _ _ _ _ _ | RegradeTesting _ | RegradeLoaded _ _ _ _
  | RegradePlanLoaded _ _ _ =>
    ∀ wr, reset_write wr → P wr
  | PlanRunLoaded _ _ | PlanRunMarked _ _ | PlanRunFinishing _ _
  | Finished => True
  end.

(** The document an activity has loaded is still stored, and a run past
    its first write has that write in the journal. *)
Definition holds (w : World) (a : activity) : Prop :=
  match a with
  | RunLoaded _ stem _ | RegradeLoaded _ stem _ _ =>
    is_Some (records w !! stem)
  | RunMarked _ stem _ | RunRecognising _ stem _ _ _ _ _
  | RunFinishing stem _ _ =>
    is_Some (records w !! stem)
    ∧ begun_before (journal w) (length (journal w)) stem
  | _ => True
  end.

(** Every stored document is the latest thing some write put there. *)
Definition written (w : World) : Prop :=
  ∀ rid r, records w !! rid = Some r → ∃ wr, wr ∈ journal w ∧ w_after wr = r.

Definition sound (P : write → Prop) (w : World) : Prop :=
  known w ∧ written w ∧ Forall P (journal w)
  ∧ ended_after_begin (journal w)
  ∧ Forall (λ a, holds w a ∧ allowed P a) (running w).

Definition demo_plan : plan :=
  {| plan_name := "math"; description := "unit 3"; prompt := "Grade it";
     plan_created_at := 0 |}.

Definition demo_init : World := init "data/math" (Some demo_plan).

Definition jpg : UploadFile := {| file_ext := ".jpg"; size := 2048 |}.

(** Recognition gives the two sums; the grading model echoes what it was
    sent and appends a grade. *)
Definition echo_env : Env :=
  {| DEEPSEEK_API_KEY := "sk-demo"; get_ocr_adapter := None;
     recognize := λ idx _, match idx with 1 => inr "2+2=4" | _ => inr "3+3=6" end;
     requests_post := λ sent,
       inr {| status_code := 200; text := "";
              content := inr (sent +:+ "Grade: A") |} |}.

(** Recognition works, the grading model answers 500. *)
Definition down_env : Env :=
  {| DEEPSEEK_API_KEY := "sk-demo"; get_ocr_adapter := None;
     recognize := λ _ _, inr "2+2=4";
     requests_post := λ _,
       inr {| status_code := 500; text := "overloaded";
              content := inl (Raise OtherError "no body") |} |}.

(** Every recognition raises; the grading model answers. *)
Definition raising_env : Env :=
  {| DEEPSEEK_API_KEY := "sk-demo"; get_ocr_adapter := None;
     recognize := λ _ _, inl (Raise Exception "timed out");
     requests_post := λ _,
       inr {| status_code := 200; text := ""; content := inr "B" |} |}.

(** Every recognition gives whitespace. *)
Definition blank_env : Env :=
  {| DEEPSEEK_API_KEY := "sk-demo"; get_ocr_adapter := None;
     recognize := λ _ _, inr ("  " +:+ nl);
     requests_post := λ _,
       inr {| status_code := 200; text := ""; content := inr "B" |} |}.

(** An upload, a regrade before its task has run, then the two tasks. *)
Definition twice_queued : list Op :=
  [OpUpload "17" "amy" [jpg]; OpRegrade (Some ["17"]);
   OpProcess "17" echo_env; OpProcess "17" down_env].

(** An upload; its run begun and taken to its first write; a regrade of
    the record; the run taken to its end. *)
Definition regrade_in_between : list Op :=
  [OpUpload "17" "amy" [jpg]; OpProcessBegin "17" echo_env; OpStep 0;
   OpRegrade (Some ["17"]); OpStep 0; OpStep 0; OpStep 0; OpStep 0].

(** The transitions the specification lists. *)
Definition spec_transition (a b : string) : Prop :=
  a = "pending" ∧ b = "processing"
  ∨ a = "processing" ∧ b = "done"
  ∨ a = "processing" ∧ b = "failed"
  ∨ a = "done" ∧ b = "pending"
  ∨ a = "failed" ∧ b = "pending".

(** The invariant the specification states. *)
Definition spec_invariant (r : record) : Prop :=
  (status r = "pending" ∨ status r = "processing" ∨ status r = "done"
   ∨ status r = "failed")
  ∧ (result r ≠ "" ↔ status r = "done")
  ∧ (error r ≠ None ↔ status r = "failed").

(** A grading model that never returns an empty completion. *)
Definition nonempty_completions (op : Op) : Prop :=
  match op with
  | OpProcess _ env | OpProcessBegin _ env =>
    ∀ sent response correction,
      requests_post env sent = inr response →
      content response = inr correction → correction ≠ ""
  | _ => True
  end.






(** The id names the record file [records/<stem>.json]. *)
Definition names (record_id stem : string) : Prop :=
  get_record_path record_id = Some (RecordFile stem).

#[global] Instance names_dec record_id stem
    : Decision (names record_id stem) :=
  ltac:(unfold names; apply _).

(** The id names a stored document: a record, or the plan document. *)
Definition counted (w : World) (record_id : string) : Prop :=
  match get_record_path record_id with
  | Some (RecordFile stem) => is_Some (records w !! stem)
  | Some ConfigFile => is_Some (config w)
  | _ => False
  end.

#[global] Instance counted_dec w record_id : Decision (counted w record_id) :=
  ltac:(unfold counted;
        destruct (get_record_path record_id) as [[| |]|]; apply _).





(** The world after one upload of two images by [amy]. *)
Definition uploaded : World :=
  (upload_homework "17" "amy" [jpg; jpg] demo_init).2.

Definition uploaded_record : record :=
  {| id := "17"; student := "amy";
     images := ["images/17_1.jpg"; "images/17_2.jpg"]; status := "pending";
     result := ""; regrade_count := 0; created_at := 0; updated_at := 1;
     ocr_text := None; error := None; previous_result := None |}.

Definition demo_tencent (region : string) : TencentOCRAdapter :=
  TencentOCRAdapter_init (Some "AKIDEXAMPLE") (Some "secretEXAMPLE") region.

(** The provider names of the specification's enumeration. *)
Definition provider_names : list string := ["tencent"; "baidu"; "ali"].

(** * Properties *)

Lemma append_assoc (s1 s2 s3 : string) :
  (s1 +:+ s2) +:+ s3 = s1 +:+ (s2 +:+ s3).
Proof.
  induction s1 as [|ch s1 IH]; [reflexivity|].
  change (String ch ((s1 +:+ s2) +:+ s3) = String ch (s1 +:+ (s2 +:+ s3))).
  now rewrite IH.
Qed.

(** ** Python's strip *)

Lemma lstrip_nil (l : list N) :
  lstrip l = [] ↔ Forall (λ cp, isspace cp = true) l.
Proof.
  induction l as [|cp rest IH]; cbn.
  - split; [constructor|reflexivity].
  - destruct (isspace cp) eqn:Ecp.
    + rewrite IH. split; [now constructor|now inversion 1].
    + split; [discriminate|]. inversion 1; congruence.
Qed.

Lemma lstrip_head (l : list N) :
  lstrip l = []
  ∨ ∃ cp rest, lstrip l = cp :: rest ∧ isspace cp = false.
Proof.
  induction l as [|cp rest IH]; cbn; [now left|].
  destruct (isspace cp) eqn:Ecp; [exact IH|]. right. eauto.
Qed.

Lemma strip_nil (l : list N) :
  strip l = [] ↔ Forall (λ cp, isspace cp = true) l.
Proof.
  unfold strip. rewrite <- lstrip_nil. split.
  - intros Hrev.
    assert (Hall : Forall (λ cp, isspace cp = true) (lstrip l)).
    { apply (f_equal (@rev N)) in Hrev. rewrite rev_involutive in Hrev.
      cbn in Hrev. apply lstrip_nil, Forall_rev in Hrev.
      now rewrite rev_involutive in Hrev. }
    destruct (lstrip_head l) as [Hnil|(cp & rest & Heq & Hcp)];
      [exact Hnil|].
    rewrite Heq in Hall. inversion Hall; congruence.
  - intros ->. reflexivity.
Qed.

Lemma strip_truthy_false (text : string) :
  strip_truthy text = false ↔ blank text.
Proof.
  unfold strip_truthy, blank. rewrite <- strip_nil.
  destruct (strip (decode text)); split; congruence.
Qed.

Lemma strip_truthy_true (text : string) :
  strip_truthy text = true ↔ ¬ blank text.
Proof.
  rewrite <- strip_truthy_false. destruct (strip_truthy text); split;
    congruence.
Qed.

Example strip_truthy_samples :
  map strip_truthy [""; "  " +:+ nl; "　"; " a "; "x"]
  = [false; false; false; true; true].
Proof. vm_compute. reflexivity. Qed.

Example str_strip_sample : str_strip (" amy　" +:+ nl) = "amy".
Proof. vm_compute. reflexivity. Qed.

Example lower_sample : lower "TenCent-Cloud" = "tencent-cloud".
Proof. vm_compute. reflexivity. Qed.

(** ** What one pipeline run writes *)

Lemma process_homework_missing env record_id w :
  records w !! record_id = None →
  process_homework env record_id w = (inr tt, w).
Proof.
  intros Hnone. unfold process_homework, load_json. now rewrite Hnone.
Qed.

Lemma process_homework_found env record_id w r :
  records w !! record_id = Some r →
  process_homework env record_id w = (inr tt, after_process env record_id w r).
Proof.
  intros Hsome. unfold process_homework, load_json. rewrite Hsome.
  unfold after_process, final, outcome, marked.
  cbn -[ocr_loop join full_prompt str_of_nat String.append].
  unfold try_except, grade, mbind, M_bind, mret, M_ret, save_json, load_config,
    gets, raise, now, mark_failed, set_records, tick.
  cbn -[ocr_loop join full_prompt str_of_nat String.append].
  rewrite Hsome.
  destruct (config w) as [c|]; [|pipeline_leaf].
  destruct (get_ocr_adapter env) as [e|]; [pipeline_leaf|].
  cbn -[ocr_loop join full_prompt str_of_nat String.append].
  destruct (ocr_loop env (image_files w) 1 (images r) []) as [|t ts];
    [pipeline_leaf|].
  case_bool_decide; [pipeline_leaf|].
  destruct (requests_post env _) as [e|response]; [pipeline_leaf|].
  case_bool_decide; [|pipeline_leaf].
  destruct (content response) as [e|correction]; pipeline_leaf.
Qed.

(** ** The per-image loop *)

Lemma ocr_loop_contributions env files image_paths :
  ∀ idx acc,
    ocr_loop env files idx image_paths acc
    = acc ++ contributions env files idx image_paths.
Proof.
  induction image_paths as [|p rest IH]; intros idx acc.
  - cbn. now rewrite app_nil_r.
  - cbn [ocr_loop contributions]. rewrite IH, app_assoc. f_equal.
    unfold contribution. case_bool_decide; [|now rewrite app_nil_r].
    destruct (recognize env idx p) as [e|text]; [reflexivity|].
    destruct (strip_truthy text); [reflexivity|now rewrite app_nil_r].
Qed.

Lemma contributions_lookup env files image_paths :
  ∀ idx i p s,
    image_paths !! i = Some p →
    s ∈ contribution env files (idx + i) p →
    s ∈ contributions env files idx image_paths.
Proof.
  induction image_paths as [|q rest IH]; intros idx i p s Hi Hs; [easy|].
  cbn [contributions]. apply elem_of_app. destruct i as [|i].
  - left. cbn in Hi. injection Hi as ->. now rewrite Nat.add_0_r in Hs.
  - right. apply (IH (S idx) i p); [exact Hi|].
    now replace (S idx + i) with (idx + S i) by lia.
Qed.

Lemma contributions_nil env files image_paths :
  ∀ idx,
    (∀ i p, image_paths !! i = Some p →
            contribution env files (idx + i) p = []) →
    contributions env files idx image_paths = [].
Proof.
  induction image_paths as [|q rest IH]; intros idx Hall; [reflexivity|].
  cbn [contributions]. rewrite (IH (S idx)).
  - rewrite app_nil_r. specialize (Hall 0 q eq_refl).
    now rewrite Nat.add_0_r in Hall.
  - intros i p Hi. specialize (Hall (S i) p Hi).
    now replace (S idx + i) with (idx + S i) by lia.
Qed.

(** The stored document after a run on an existing record. *)
Lemma process_homework_record env record_id w r :
  records w !! record_id = Some r →
  records (process_homework env record_id w).2 !! record_id
  = Some (final env w r).
Proof.
  intros Hsome. rewrite (process_homework_found _ _ _ _ Hsome).
  cbn. apply lookup_insert_eq.
Qed.

(** ** One pipeline run *)

(** C10. In the per-image loop an image whose stored file is missing, or
    whose OCR text is empty or only whitespace, adds nothing to the combined
    text, neither a labelled section nor a placeholder; a placeholder comes
    only from a recognition that raised.  So a record whose images are all
    missing or blank has an empty combined list and, once the plan is loaded
    and the adapter obtained, ends [failed] with the no-recognised-text
    error. *)
Theorem unusable_images_are_omitted env w record_id r c :
  (∀ files idx p rest acc,
     p ∉ files ∨ (∃ t, recognize env idx p = inr t ∧ blank t) →
     ocr_loop env files idx (p :: rest) acc
     = ocr_loop env files (S idx) rest acc)
  ∧ (∀ files idx p rest acc e,
       p ∈ files → recognize env idx p = inl e →
       ocr_loop env files idx (p :: rest) acc
       = ocr_loop env files (S idx) rest
           (acc ++ ["【图片 " +:+ str_of_nat idx +:+ "】" +:+ nl
                      +:+ "(识别失败: " +:+ str_of_exn e +:+ ")"]))
  ∧ (records w !! record_id = Some r →
     config w = Some c →
     get_ocr_adapter env = None →
     (∀ i p, images r !! i = Some p →
        p ∉ image_files w
        ∨ (∃ t, recognize env (S i) p = inr t ∧ blank t)) →
     ocr_loop env (image_files w) 1 (images r) [] = []
     ∧ ∃ r', records (process_homework env record_id w).2 !! record_id
             = Some r'
             ∧ status r' = "failed"
             ∧ error r' = Some "OCR 未识别到任何文字内容"
             ∧ result r' = result r
             ∧ ocr_text r' = ocr_text r).
Proof.
  split; [|split].
  - intros files idx p rest acc [Hmiss|(t & Ht & Hblank)]; cbn [ocr_loop].
    + now rewrite bool_decide_eq_false_2.
    + apply strip_truthy_false in Hblank. rewrite Ht, Hblank.
      now case_bool_decide.
  - intros files idx p rest acc e Hin He. cbn [ocr_loop].
    rewrite bool_decide_eq_true_2, He by exact Hin.
    unfold section_label. now rewrite !append_assoc.
  - intros Hsome Hcfg Hadapter Hall.
    assert (Hnil : ocr_loop env (image_files w) 1 (images r) [] = []).
    { rewrite ocr_loop_contributions. cbn [app].
      apply contributions_nil. intros i p Hi. unfold contribution.
      destruct (Hall i p Hi) as [Hmiss|(t & Ht & Hblank)]; cbn [Nat.add].
      - now rewrite bool_decide_eq_false_2.
      - apply strip_truthy_false in Hblank. rewrite Ht, Hblank.
        now case_bool_decide. }
    split; [exact Hnil|]. eexists. split.
    + apply process_homework_record, Hsome.
    + unfold final, outcome. rewrite Hcfg, Hadapter, Hnil. now cbn.
Qed.

(** C7. When a run succeeds, the stored [ocr_text] is the blank-line join of
    what the images contribute in their stored order, an image recognised to
    text that is not blank contributing the section labelled with its
    1-based position; the content sent to the grading model is the plan's
    prompt, the student-homework header and that joined text; [result] is
    the completion returned and [status] is [done]. *)
Theorem graded_record_holds_sections_and_completion
    env w record_id r c response correction :
  records w !! record_id = Some r →
  config w = Some c →
  get_ocr_adapter env = None →
  DEEPSEEK_API_KEY env ≠ "" →
  ocr_loop env (image_files w) 1 (images r) [] ≠ [] →
  requests_post env
    (prompt c +:+ nl +:+ nl +:+ "【学生作业内容】" +:+ nl
       +:+ join (nl +:+ nl) (ocr_loop env (image_files w) 1 (images r) [])
       +:+ nl) = inr response →
  status_code response = 200 →
  content response = inr correction →
  ∃ r',
    records (process_homework env record_id w).2 !! record_id = Some r'
    ∧ status r' = "done"
    ∧ result r' = correction
    ∧ ocr_text r'
      = Some (join (nl +:+ nl)
                (contributions env (image_files w) 1 (images r)))
    ∧ ∀ i p t,
        images r !! i = Some p →
        p ∈ image_files w →
        recognize env (S i) p = inr t →
        ¬ blank t →
        contribution env (image_files w) (S i) p
        = ["【图片 " +:+ str_of_nat (S i) +:+ "】" +:+ nl +:+ t]
        ∧ "【图片 " +:+ str_of_nat (S i) +:+ "】" +:+ nl +:+ t
          ∈ contributions env (image_files w) 1 (images r).
Proof.
  intros Hsome Hcfg Hadapter Hkey Hne Hpost Hcode Hcontent.
  assert (Hsec : ∀ i p t,
             p ∈ image_files w → recognize env (S i) p = inr t →
             ¬ blank t →
             contribution env (image_files w) (S i) p
             = ["【图片 " +:+ str_of_nat (S i) +:+ "】" +:+ nl +:+ t]).
  { intros i p t Hin Ht Hgood. apply strip_truthy_true in Hgood.
    unfold contribution.
    rewrite bool_decide_eq_true_2, Ht, Hgood by exact Hin.
    unfold section_label. now rewrite !append_assoc. }
  eexists. split; [apply process_homework_record, Hsome|].
  unfold final, outcome. rewrite Hcfg, Hadapter.
  pose proof (ocr_loop_contributions env (image_files w) (images r) 1 [])
    as Hloop.
  cbn [app] in Hloop.
  destruct (ocr_loop env (image_files w) 1 (images r) []) as [|t0 ts] eqn:El;
    [easy|].
  rewrite bool_decide_eq_false_2 by exact Hkey.
  unfold full_prompt. rewrite Hpost, Hcode, Hcontent. cbn.
  rewrite <- Hloop. repeat split; try reflexivity.
  - apply Hsec; assumption.
  - rewrite Hloop. apply (contributions_lookup _ _ _ 1 i p); [assumption|].
    cbn [Nat.add]. rewrite (Hsec i p t) by assumption. apply list_elem_of_here.
Qed.

(** C3, amended. When the grading call answers with a status other than
    200, the record ends [failed] with the error message recorded; its
    [result] and its [ocr_text] are what the run found: the result stays
    empty when it was empty, as after an upload or a regrade, and the text
    computed in this run is not stored. *)
Theorem grading_failure_keeps_result_and_ocr_text
    env w record_id r c response :
  records w !! record_id = Some r →
  config w = Some c →
  get_ocr_adapter env = None →
  DEEPSEEK_API_KEY env ≠ "" →
  ocr_loop env (image_files w) 1 (images r) [] ≠ [] →
  requests_post env
    (full_prompt (prompt c)
       (join (nl +:+ nl) (ocr_loop env (image_files w) 1 (images r) [])))
  = inr response →
  status_code response ≠ 200 →
  ∃ r',
    records (process_homework env record_id w).2 !! record_id = Some r'
    ∧ status r' = "failed"
    ∧ error r'
      = Some ("DeepSeek API 调用失败: " +:+ str_of_nat (status_code response)
                +:+ " - " +:+ text response)
    ∧ result r' = result r
    ∧ (result r = "" → result r' = "")
    ∧ ocr_text r' = ocr_text r.
Proof.
  intros Hsome Hcfg Hadapter Hkey Hne Hpost Hcode.
  eexists. split; [apply process_homework_record, Hsome|].
  unfold final, outcome. rewrite Hcfg, Hadapter.
  destruct (ocr_loop env (image_files w) 1 (images r) []) as [|t0 ts] eqn:El;
    [easy|].
  rewrite bool_decide_eq_false_2 by exact Hkey.
  rewrite Hpost, bool_decide_eq_false_2 by exact Hcode.
  cbn. repeat split; auto.
Qed.

(** ** What the operations write *)

Lemma begun_before_app j ws i rid :
  begun_before j i rid → begun_before (j ++ ws) i rid.
Proof.
  intros (k & wr0 & Hk & Hl & Hid & Hst). exists k, wr0.
  repeat split; auto. now apply lookup_app_l_Some.
Qed.

Lemma begun_before_le j i i' rid :
  (i <= i')%nat → begun_before j i rid → begun_before j i' rid.
Proof.
  intros Hle (k & wr0 & Hk & H). exists k, wr0. split; [lia|exact H].
Qed.

Lemma ended_after_begin_app j ws :
  ended_after_begin j →
  (∀ i wr, ws !! i = Some wr → ends_run wr →
           begun_before (j ++ ws) (length j + i) (w_id wr)) →
  ended_after_begin (j ++ ws).
Proof.
  intros Hj Hws i wr Hi Hend. apply lookup_app_Some in Hi as [Hi|[Hle Hi]].
  - apply begun_before_app. now apply Hj.
  - replace i with (length j + (i - length j))%nat by lia. now apply Hws.
Qed.

Lemma ended_after_begin_quiet j ws :
  ended_after_begin j → Forall (λ wr, ¬ ends_run wr) ws →
  ended_after_begin (j ++ ws).
Proof.
  intros Hj Hws. apply ended_after_begin_app; [exact Hj|].
  intros i wr Hi Hend. rewrite Forall_forall in Hws.
  destruct (Hws wr); [|exact Hend]. eapply list_elem_of_lookup_2, Hi.
Qed.

Lemma not_ends_run_pending wr :
  status (w_after wr) = "pending" → ¬ ends_run wr.
Proof. intros Hst [H|H]; rewrite Hst in H; discriminate. Qed.

Lemma not_ends_run_processing wr :
  status (w_after wr) = "processing" → ¬ ends_run wr.
Proof. intros Hst [H|H]; rewrite Hst in H; discriminate. Qed.

Section Writes.

Context (P : write → Prop).

Lemma follows_refl w : follows P w w.
Proof.
  intros Hk. split; [exact Hk|]. split; [reflexivity|]. split; [auto|].
  split; [auto|]. exists []. rewrite app_nil_r. repeat split; auto.
Qed.

Lemma follows_same w w' :
  records w' = records w → journal w' = journal w →
  running w' = running w → follows P w w'.
Proof.
  unfold follows, known. intros -> -> ->. intros Hk.
  split; [exact Hk|]. split; [reflexivity|]. split; [auto|].
  split; [auto|]. exists []. rewrite app_nil_r. repeat split; auto.
Qed.

Lemma follows_trans w w1 w2 :
  follows P w w1 → follows P w1 w2 → follows P w w2.
Proof.
  intros H1 H2 Hk.
  destruct (H1 Hk) as (Hk1 & Hrun1 & Hg1 & He1 & ws1 & Hj1 & HP1 & Hr1).
  destruct (H2 Hk1) as (Hk2 & Hrun2 & Hg2 & He2 & ws2 & Hj2 & HP2 & Hr2).
  split; [exact Hk2|]. split; [congruence|]. split; [auto|].
  split; [auto|]. exists (ws1 ++ ws2). repeat split.
  - now rewrite Hj2, Hj1, app_assoc.
  - now apply Forall_app.
  - intros rid r Hr. destruct (Hr2 rid r Hr) as [Hold|(wr & Hin & Hw)].
    + destruct (Hr1 rid r Hold) as [Hold1|(wr & Hin & Hw)]; [now left|].
      right. exists wr. split; [|exact Hw]. apply elem_of_app. now left.
    + right. exists wr. split; [|exact Hw]. apply elem_of_app. now right.
Qed.

Lemma writes_ret {A} (a : A) : writes P (mret a).
Proof. intros w. apply follows_refl. Qed.

Lemma writes_raise {A} e : writes P (@raise A e).
Proof. intros w. apply follows_refl. Qed.

Lemma writes_gets {A} (f : World → A) : writes P (gets f).
Proof. intros w. apply follows_refl. Qed.

Lemma writes_now : writes P now.
Proof. intros w. now apply follows_same. Qed.

Lemma writes_add_task record_id : writes P (add_task record_id).
Proof. intros w. now apply follows_same. Qed.

Lemma writes_set_plan_marks m : writes P (modify (set_plan_marks m)).
Proof. intros w. now apply follows_same. Qed.

Lemma writes_bind {A B} (m : M A) (k : A → M B) :
  writes P m → (∀ a, writes P (k a)) → writes P (m ≫= k).
Proof.
  intros Hm Hk w. unfold mbind, M_bind. specialize (Hm w).
  destruct (m w) as [[e|a] w1]; [exact Hm|].
  eapply follows_trans; [exact Hm|apply Hk].
Qed.

(** A write of a [pending] document is allowed when [P] accepts it
    whatever status, or none, it replaces. *)
Lemma writes_save_json record_id data :
  status data = "pending" →
  (∀ before, found before →
     P {| w_id := record_id; w_before := before; w_after := data |}) →
  writes P (save_json record_id data).
Proof.
  intros Hst HP w Hk. unfold known, save_json, set_records.
  cbn [snd records journal running]. split; [|split; [reflexivity|split]].
  - intros rid r. destruct (decide (record_id = rid)) as [->|Hne].
    + rewrite lookup_insert_eq. intros [= <-]. rewrite Hst. now left.
    + rewrite lookup_insert_ne by exact Hne. apply Hk.
  - intros rid. destruct (decide (record_id = rid)) as [->|Hne].
    + rewrite lookup_insert_eq. eauto.
    + now rewrite lookup_insert_ne.
  - split.
    + intros He. apply ended_after_begin_quiet; [exact He|].
      apply Forall_singleton, not_ends_run_pending, Hst.
    + eexists. split; [reflexivity|]. split.
      * apply Forall_singleton, HP. unfold found.
        destruct (records w !! record_id) as [r|] eqn:E; cbn; [|exact I].
        exact (Hk _ _ E).
      * intros rid r. destruct (decide (record_id = rid)) as [->|Hne].
        -- rewrite lookup_insert_eq. intros [= <-]. right.
           eexists. split; [apply list_elem_of_here|reflexivity].
        -- rewrite lookup_insert_ne by exact Hne. now left.
Qed.

Lemma writes_save_images record_id uploads :
  ∀ idx saved_images,
    writes P (save_images record_id idx uploads saved_images).
Proof.
  induction uploads as [|image rest IH]; intros idx saved; cbn [save_images].
  - apply writes_ret.
  - destruct (negb _); [apply writes_raise|].
    destruct (_ <? _)%nat; [apply writes_raise|].
    apply writes_bind; [|intros _; apply IH].
    intros w. now apply follows_same.
Qed.

End Writes.

Create HintDb writes.

#[global] Hint Resolve writes_ret writes_raise writes_gets writes_now
  writes_add_task writes_set_plan_marks writes_save_images : writes.

(** One [x ← m; k] at a time, the left side by the lemmas above. *)
Ltac writes_bind :=
  apply writes_bind; [solve [auto with writes]|intros ?].

Lemma request_grading_completion env prompt recognized_texts all_text
    correction :
  request_grading env prompt recognized_texts = inr (all_text, correction) →
  ∃ sent response,
    requests_post env sent = inr response
    ∧ status_code response = 200
    ∧ content response = inr correction.
Proof.
  unfold request_grading. destruct recognized_texts as [|t ts]; [easy|].
  case_bool_decide; [easy|].
  destruct (requests_post env _) as [e|response] eqn:Epost; [easy|].
  case_bool_decide as Hcode; [|easy].
  destruct (content response) as [e|c'] eqn:Ec; [easy|].
  intros [= <- <-]. eauto.
Qed.

Lemma outcome_completion env w r all_text correction :
  outcome env w r = inr (all_text, correction) →
  ∃ sent response,
    requests_post env sent = inr response
    ∧ status_code response = 200
    ∧ content response = inr correction.
Proof.
  unfold outcome. destruct (config w) as [c|]; [|easy].
  destruct (get_ocr_adapter env); [easy|].
  destruct (ocr_loop _ _ _ _ _) as [|t ts]; [easy|].
  case_bool_decide; [easy|].
  destruct (requests_post env _) as [e|response] eqn:Epost; [easy|].
  case_bool_decide as Hcode; [|easy].
  destruct (content response) as [e|c'] eqn:Ec; [easy|].
  intros [= <- <-]. eauto.
Qed.

Section Operations.

Context (P : write → Prop).

(** *** The handlers *)

Section Handlers.

Hypothesis Hreset : ∀ wr, reset_write wr → P wr.

Lemma writes_reset record_id data :
  status data = "pending" → result data = "" →
  writes P (save_json record_id data).
Proof.
  intros Hst Hres. apply writes_save_json; [exact Hst|].
  intros before Hb. apply Hreset. now repeat split.
Qed.

Lemma upload_homework_writes record_id student uploads :
  writes P (upload_homework record_id student uploads).
Proof.
  unfold upload_homework. writes_bind.
  destruct a as [c|]; [|auto with writes].
  destruct (negb _); [auto with writes|].
  destruct (_ <? _)%nat; [auto with writes|].
  do 3 writes_bind.
  apply writes_bind; [|intros _; writes_bind; auto with writes].
  now apply writes_reset.
Qed.

Lemma regrade_loop_writes record_ids :
  ∀ count, writes P (regrade_loop record_ids count).
Proof.
  induction record_ids as [|record_id rest IH]; intros count;
    cbn [regrade_loop]; [auto with writes|].
  destruct (get_record_path record_id) as [[stem| |]|];
    [| |apply IH|auto with writes].
  - writes_bind. destruct a as [loaded|]; [|apply IH].
    writes_bind.
    apply writes_bind; [|intros _; writes_bind; apply IH].
    now apply writes_reset.
  - writes_bind. destruct a as [c|]; [|apply IH].
    do 4 writes_bind. apply IH.
Qed.

Lemma regrade_records_writes request :
  writes P (regrade_records request).
Proof.
  unfold regrade_records. writes_bind.
  destruct a as [c|]; [|auto with writes].
  writes_bind. apply regrade_loop_writes.
Qed.

End Handlers.

(** *** The run *)

Lemma process_homework_follows env record_id w :
  (∀ wr, run_write env wr → P wr) →
  follows P w (process_homework env record_id w).2.
Proof.
  intros Hrun.
  destruct (records w !! record_id) as [r|] eqn:Er.
  2:{ rewrite (process_homework_missing _ _ _ Er). apply follows_refl. }
  rewrite (process_homework_found _ _ _ _ Er). cbn [snd]. intros Hk.
  assert (Hfinal :
    status (final env w r) = "failed" ∧ error (final env w r) ≠ None
    ∨ status (final env w r) = "done"
      ∧ ∃ sent response,
          requests_post env sent = inr response
          ∧ content response = inr (result (final env w r))).
  { unfold final. destruct (outcome env w r) as [e|[all_text c]] eqn:Eo.
    - left. now cbn.
    - right. cbn. split; [reflexivity|].
      destruct (outcome_completion _ _ _ _ _ Eo) as (sent & resp & ? & _ & ?).
      eauto. }
  unfold known, after_process. cbn [records journal running].
  split; [|split; [reflexivity|split; [|split]]].
  - intros rid r'.
    destruct (decide (record_id = rid)) as [->|Hne].
    + rewrite lookup_insert_eq. intros [= <-]. unfold known_status.
      destruct Hfinal as [[-> _]|[-> _]]; auto.
    + rewrite lookup_insert_ne by exact Hne. apply Hk.
  - intros rid. destruct (decide (record_id = rid)) as [->|Hne].
    + rewrite lookup_insert_eq. eauto.
    + now rewrite lookup_insert_ne.
  - intros He. apply ended_after_begin_app; [exact He|].
    intros [|[|i]] wr; cbn; [| |easy]; intros [= <-].
    + intros [H|H]; discriminate H.
    + intros _. eexists (length (journal w)), _. split; [lia|].
      split; [rewrite lookup_app_r by lia; rewrite Nat.sub_diag;
              reflexivity|].
      split; reflexivity.
  - eexists. split; [reflexivity|]. split.
    + constructor; [|constructor; [|constructor]]; apply Hrun;
        (split; [eexists; split; [reflexivity|]|]); cbn [w_before w_after].
      * exact (Hk _ _ Er).
      * now left.
      * right. now left.
      * right. exact Hfinal.
    + intros rid r'.
      destruct (decide (record_id = rid)) as [->|Hne].
      * rewrite lookup_insert_eq. intros [= <-]. right. eexists. split.
        -- apply list_elem_of_further, list_elem_of_here.
        -- reflexivity.
      * rewrite lookup_insert_ne by exact Hne. now left.
Qed.

Lemma process_plan_document_follows env w :
  follows P w (process_plan_document env w).2.
Proof.
  unfold process_plan_document, load_config.
  destruct (config w); [|apply follows_refl].
  now apply follows_same.
Qed.

Lemma run_task_follows env record_id w :
  (∀ wr, run_write env wr → P wr) →
  follows P w (run_task env record_id w).2.
Proof.
  intros Hrun. unfold run_task.
  destruct (get_record_path record_id) as [[stem| |]|].
  - now apply process_homework_follows.
  - apply process_plan_document_follows.
  - apply follows_refl.
  - apply follows_refl.
Qed.

(** *** One step of an activity *)

Lemma holds_follows w w' a :
  known w → follows P w w' → holds w a → holds w' a.
Proof.
  intros Hk Hf. destruct (Hf Hk) as (_ & _ & Hg & _ & ws & Hj & _).
  assert (Hb : ∀ stem,
             begun_before (journal w) (length (journal w)) stem →
             begun_before (journal w') (length (journal w')) stem).
  { intros stem Hb. rewrite Hj. apply begun_before_app.
    eapply begun_before_le; [|exact Hb]. rewrite length_app. lia. }
  destruct a; cbn; auto; intros [Hs Hbegun]; auto.
Qed.

Lemma step_sound a w a' w' :
  known w → holds w a → allowed P a → step a w = Some (a', w') →
  follows P w w' ∧ holds w' a' ∧ allowed P a'.
Proof.
  intros Hk Hh Ha.
  destruct a as [env stem loaded|env stem record
                |env stem record prompt idx rest texts|stem record outcome
                |env loaded|env record|record e
                |rid student idx rest saved|rest|rid stem loaded rest
                |rid loaded rest|]; cbn [step holds allowed] in *.
  - (* the first write of a run *)
    intros [= <- <-].
    destruct Hh as [r Hr].
    unfold save_json, set_records, tick.
    cbn [snd records journal running clock]. rewrite Hr. cbn [fmap option_fmap option_map].
    split; [|split; [split|exact Ha]].
    + intros _. unfold known. cbn [records journal running].
      split; [|split; [reflexivity|split; [|split]]].
      * intros rid r'. destruct (decide (stem = rid)) as [->|Hne].
        -- rewrite lookup_insert_eq. intros [= <-]. right. now left.
        -- rewrite lookup_insert_ne by exact Hne. apply Hk.
      * intros rid. destruct (decide (stem = rid)) as [->|Hne].
        -- rewrite lookup_insert_eq. eauto.
        -- now rewrite lookup_insert_ne.
      * intros He. apply ended_after_begin_quiet; [exact He|].
        now apply Forall_singleton, not_ends_run_processing.
      * eexists. split; [reflexivity|]. split.
        -- apply Forall_singleton, Ha. split.
           ++ eexists. split; [reflexivity|]. exact (Hk _ _ Hr).
           ++ now left.
        -- intros rid r'. destruct (decide (stem = rid)) as [->|Hne].
           ++ rewrite lookup_insert_eq. intros [= <-]. right. eexists.
              split; [apply list_elem_of_here|reflexivity].
           ++ rewrite lookup_insert_ne by exact Hne. now left.
    + cbn [records]. rewrite lookup_insert_eq. eauto.
    + cbn [journal]. eexists (length (journal w)), _.
      split; [rewrite length_app; cbn; lia|].
      split; [rewrite lookup_app_r by lia; rewrite Nat.sub_diag;
              reflexivity|].
      split; reflexivity.
  - (* the plan document and the adapter *)
    intros [= <- <-]. split; [apply follows_refl|].
    unfold load_config. destruct (config w) as [c|];
      [destruct (get_ocr_adapter env)|]; cbn [holds allowed];
      (split; [exact Hh|]); eauto.
  - (* the image loop *)
    destruct rest as [|p rest]; intros [= <- <-];
      (split; [apply follows_refl|]); cbn [holds allowed];
      (split; [exact Hh|]); [|exact Ha].
    exists env. split; [exact Ha|].
    destruct (request_grading env prompt texts) as [e|[all_text c]] eqn:Eg;
      [exact I|].
    destruct (request_grading_completion _ _ _ _ _ Eg)
      as (sent & response & Hp & _ & Hc).
    eauto.
  - (* the last write of a run *)
    intros [= <- <-]. cbn [holds allowed]. split; [|split; exact I].
    destruct Hh as [[r Hr] Hb]. destruct Ha as (env & Hrun & Hout).
    intros _.
    assert (Hw : ∃ data,
      (finish_run stem record outcome w).2
      = (save_json stem data (tick w)).2
      ∧ (status data = "failed" ∧ error data ≠ None
         ∨ status data = "done"
           ∧ ∃ sent response,
               requests_post env sent = inr response
               ∧ content response = inr (result data))).
    { destruct outcome as [e|[all_text c]]; cbn; eexists;
        (split; [reflexivity|]); cbn; [now left|right].
      split; [reflexivity|exact Hout]. }
    destruct Hw as (data & -> & Hdata).
    unfold known, save_json, set_records, tick.
    cbn [snd records journal running clock]. rewrite Hr.
    cbn [fmap option_fmap option_map].
    split; [|split; [reflexivity|split; [|split]]].
    + intros rid r'. destruct (decide (stem = rid)) as [->|Hne].
      * rewrite lookup_insert_eq. intros [= <-]. unfold known_status.
        destruct Hdata as [[-> _]|[-> _]]; auto.
      * rewrite lookup_insert_ne by exact Hne. apply Hk.
    + intros rid. destruct (decide (stem = rid)) as [->|Hne].
      * rewrite lookup_insert_eq. eauto.
      * now rewrite lookup_insert_ne.
    + intros He. apply ended_after_begin_app; [exact He|].
      intros [|i] wr; cbn; [|easy]. intros [= <-] _. cbn [w_id].
      apply begun_before_app. eapply begun_before_le; [|exact Hb]. lia.
    + eexists. split; [reflexivity|]. split.
      * apply Forall_singleton, Hrun. split.
        -- eexists. split; [reflexivity|]. exact (Hk _ _ Hr).
        -- right. exact Hdata.
      * intros rid r'. destruct (decide (stem = rid)) as [->|Hne].
        -- rewrite lookup_insert_eq. intros [= <-]. right. eexists.
           split; [apply list_elem_of_here|reflexivity].
        -- rewrite lookup_insert_ne by exact Hne. now left.
  - intros [= <- <-]. split; [now apply follows_same|]. now cbn.
  - intros [= <- <-]. split; [apply follows_refl|]. now cbn.
  - intros [= <- <-]. split; [now apply follows_same|]. now cbn.
  - (* the upload loop *)
    destruct rest as [|image rest].
    + intros [= <- <-]. split; [|now cbn].
      pose proof (writes_bind P now
                    (λ created,
                       updated ← now;
                       save_json rid
                         {| id := rid; student := str_strip student;
                            images := saved; status := "pending";
                            result := ""; regrade_count := 0;
                            created_at := created; updated_at := updated;
                            ocr_text := None; error := None;
                            previous_result := None |};;
                       add_task rid)) as Hw.
      apply Hw; [apply writes_now|]. intros created.
      apply writes_bind; [apply writes_now|]. intros updated.
      apply writes_bind; [|intros _; apply writes_add_task].
      now apply writes_reset.
    + destruct (negb _); [intros [= <- <-]; split; [apply follows_refl|now cbn]|].
      destruct (_ <? _)%nat;
        [intros [= <- <-]; split; [apply follows_refl|now cbn]|].
      intros [= <- <-]. split; [now apply follows_same|]. now cbn.
  - (* the regrade loop *)
    destruct rest as [|record_id rest].
    + intros [= <- <-]. split; [apply follows_refl|]. now cbn.
    + destruct (get_record_path record_id) as [[stem| |]|]; [| | |easy];
        intros [= <- <-]; (split; [apply follows_refl|]).
      * destruct (records w !! stem) as [loaded|] eqn:El; cbn; eauto.
      * destruct (config w); now cbn.
      * now cbn.
  - intros [= <- <-]. split; [|now cbn].
    eapply follows_trans; [apply (follows_same P w (tick w)); reflexivity|].
    pose proof (writes_bind P
                  (save_json stem
                     (set_updated_at (clock w)
                        (set_regrade_count
                           (regrade_count
                              (if bool_decide (result loaded = "")
                               then loaded
                               else set_previous_result (result loaded)
                                      loaded) + 1)
                           (set_result ""
                              (set_status "pending"
                                 (if bool_decide (result loaded = "")
                                  then loaded
                                  else set_previous_result (result loaded)
                                         loaded))))))
                  (λ _, add_task rid)) as Hw.
    apply Hw; [|intros _; apply writes_add_task].
    now apply writes_reset.
  - intros [= <- <-]. split; [now apply follows_same|]. now cbn.
  - easy.
Qed.

(** *** Operations and runs *)

Lemma sound_follows w w' :
  sound P w → follows P w w' → sound P w'.
Proof.
  intros (Hk & Hw & Hj & He & Hr) Hf.
  destruct (Hf Hk) as (Hk' & Hrun & Hg & He' & ws & Hj' & HP & Hr').
  split; [exact Hk'|]. split; [|split; [|split]].
  - intros rid r Hrec. destruct (Hr' rid r Hrec) as [Hold|(wr & Hin & Hwr)].
    + destruct (Hw rid r Hold) as (wr & Hin & Hwr). exists wr.
      split; [|exact Hwr]. rewrite Hj'. apply elem_of_app. now left.
    + exists wr. split; [|exact Hwr]. rewrite Hj'. apply elem_of_app.
      now right.
  - rewrite Hj'. apply Forall_app. now split.
  - auto.
  - rewrite Hrun. eapply Forall_impl; [exact Hr|]. cbn.
    intros a [Hh Ha]. split; [|exact Ha]. now apply (holds_follows w).
Qed.

Lemma sound_set_tasks f w : sound P w → sound P (set_tasks f w).
Proof. intros Hs. apply (sound_follows w); [exact Hs|]. now apply follows_same. Qed.

Lemma sound_spawn a w :
  sound P w → holds w a → allowed P a → sound P (spawn a w).
Proof.
  intros (Hk & Hw & Hj & He & Hr) Hh Ha.
  split; [exact Hk|]. split; [exact Hw|]. split; [exact Hj|].
  split; [exact He|]. unfold spawn. cbn [running set_running].
  apply Forall_app. split; [exact Hr|]. apply Forall_singleton.
  now split.
Qed.

Lemma exec_sound (ops : list Op) op w w' :
  (∀ op' wr, op' ∈ ops → written_by op' wr → P wr) →
  op ∈ ops → sound P w → exec op w = Some w' → sound P w'.
Proof.
  intros HP Hin Hs.
  destruct op as [rid student uploads|request|rid env|rid student uploads
                 |request|rid env|n]; cbn [exec].
  - intros [= <-]. apply (sound_follows w); [exact Hs|].
    apply upload_homework_writes. exact (λ wr, HP _ wr Hin).
  - destruct (regrade_records request w) as [res w1] eqn:Er.
    assert (Hf : follows P w w1).
    { pose proof (regrade_records_writes (λ wr, HP _ wr Hin) request w)
        as Hf. now rewrite Er in Hf. }
    destruct res as [[cls msg]|n]; [destruct cls|]; intros [= <-];
      now apply (sound_follows w).
  - case_bool_decide; [|easy].
    destruct (run_task env rid _) as [[e|[]] w1] eqn:Er; [easy|].
    intros [= <-].
    apply (sound_follows (set_tasks (remove_one rid) w));
      [apply sound_set_tasks, Hs|].
    pose proof (run_task_follows env rid
                  (set_tasks (remove_one rid) w) (λ wr, HP _ wr Hin)) as Hf.
    now rewrite Er in Hf.
  - intros [= <-]. unfold begin_upload.
    destruct (config w); [|exact Hs].
    destruct (negb _); [exact Hs|].
    destruct (_ <? _)%nat; [exact Hs|].
    apply sound_spawn; [exact Hs|exact I|]. exact (λ wr, HP _ wr Hin).
  - intros [= <-]. unfold begin_regrade.
    destruct (config w); [|exact Hs].
    apply sound_spawn; [exact Hs|exact I|]. exact (λ wr, HP _ wr Hin).
  - case_bool_decide; [|easy]. unfold begin_process.
    pose proof (sound_set_tasks (remove_one rid) w Hs) as Hs1.
    destruct (get_record_path rid) as [[stem| |]|]; [| | |easy];
      intros [= <-]; [| |exact Hs1].
    + destruct (records _ !! stem) as [loaded|] eqn:El; [|exact Hs1].
      apply sound_spawn; [exact Hs1|cbn; eauto|]. exact (λ wr, HP _ wr Hin).
    + destruct (config _); [|exact Hs1].
      now apply sound_spawn.
  - destruct (running w !! n) as [a|] eqn:En; [|easy].
    destruct (step a w) as [[a' w1]|] eqn:Es; [|easy]. intros [= <-].
    pose proof Hs as (Hk & _ & _ & _ & Hr).
    rewrite Forall_forall in Hr.
    destruct (Hr a) as [Hh Ha]; [eapply list_elem_of_lookup_2, En|].
    destruct (step_sound a w a' w1 Hk Hh Ha Es) as (Hf & Hh' & Ha').
    destruct (sound_follows w w1 Hs Hf) as (Hk1 & Hw1 & Hj1 & He1 & Hr1).
    split; [exact Hk1|]. split; [exact Hw1|]. split; [exact Hj1|].
    split; [exact He1|]. cbn [running set_running].
    apply Forall_insert; [exact Hr1|]. now split.
Qed.

Lemma run_sound ops :
  ∀ (all : list Op) w w',
    (∀ op wr, op ∈ all → written_by op wr → P wr) →
    (∀ op, op ∈ ops → op ∈ all) →
    sound P w → run ops w = Some w' → sound P w'.
Proof.
  induction ops as [|op rest IH]; intros all w w' HP Hsub Hs; cbn [run].
  - now intros [= <-].
  - destruct (exec op w) as [w1|] eqn:Eexec; [|easy]. intros Hrun.
    apply (IH all w1 w' HP); [| |exact Hrun].
    + intros op' Hin. apply Hsub. now apply list_elem_of_further.
    + apply (exec_sound all op w); auto. apply Hsub, list_elem_of_here.
Qed.

Lemma init_sound dir cfg : sound P (init dir cfg).
Proof.
  split; [|split; [|split; [|split]]].
  - intros rid r H. now destruct (lookup_empty_Some (M := gmap string) rid r).
  - intros rid r H. now destruct (lookup_empty_Some (M := gmap string) rid r).
  - constructor.
  - intros i wr H. now destruct i.
  - constructor.
Qed.

End Operations.

(** ** The state machine *)

(** C1, as stated, fails: a regrade that arrives before the task of the
    upload has run moves the record from [pending] to [pending], and the
    second of the two tasks then queued starts from [done]. *)
Lemma regrade_ignores_status_counterexample :
  ∃ w, run twice_queued demo_init = Some w
       ∧ map (λ wr, (w_before wr, status (w_after wr))) (journal w)
         = [(None, "pending"); (Some "pending", "pending");
            (Some "pending", "processing"); (Some "processing", "done");
            (Some "done", "processing"); (Some "processing", "failed")]
       ∧ ¬ spec_transition "pending" "pending"
       ∧ ¬ spec_transition "done" "processing".
Proof.
  eexists. split; [vm_compute; reflexivity|].
  split; [vm_compute; reflexivity|].
  unfold spec_transition. split; intros H; decompose [and or] H; discriminate.
Qed.

(** A regrade served while a run is between its two writes finds the
    record [processing] and makes it [pending]; the run then ends on the
    [pending] record. *)
Example regrade_during_run :
  ∃ w, run regrade_in_between demo_init = Some w
       ∧ map (λ wr, (w_before wr, status (w_after wr))) (journal w)
         = [(None, "pending"); (Some "pending", "processing");
            (Some "processing", "pending"); (Some "pending", "done")]
       ∧ ¬ spec_transition "processing" "pending"
       ∧ ¬ spec_transition "pending" "done".
Proof.
  eexists. split; [vm_compute; reflexivity|].
  split; [vm_compute; reflexivity|].
  unfold spec_transition. split; intros H; decompose [and or] H; discriminate.
Qed.

(** C1, amended. Whatever the order in which requests are served and runs
    go on in between, every write of a record document leaves one of the
    four statuses; a write that makes a new document leaves it [pending];
    a write on an existing document finds one of the four statuses, any of
    them; and a write that leaves [done] or [failed] comes after a write
    that left the same record [processing]. *)
Theorem status_moves dir cfg ops w i wr :
  run ops (init dir cfg) = Some w →
  journal w !! i = Some wr →
  known_status (status (w_after wr))
  ∧ match w_before wr with
    | None => status (w_after wr) = "pending"
    | Some before => known_status before
    end
  ∧ (status (w_after wr) = "done" ∨ status (w_after wr) = "failed" →
     ∃ k wr0, (k < i)%nat ∧ journal w !! k = Some wr0
              ∧ w_id wr0 = w_id wr
              ∧ status (w_after wr0) = "processing").
Proof.
  intros Hrun Hi.
  set (P := λ wr : write,
         known_status (status (w_after wr))
         ∧ match w_before wr with
           | None => status (w_after wr) = "pending"
           | Some before => known_status before
           end).
  assert (Hs : sound P w).
  { apply (run_sound P ops ops (init dir cfg) w); auto;
      [|apply init_sound].
    intros op wr' _. unfold P.
    destruct op; cbn; try easy.
    all: try (intros (Hf & Hst & _); rewrite Hst; split; [now left|];
              destruct (w_before wr'); [exact Hf|reflexivity]).
    all: intros ((s & -> & Hs) & [Hst|[[Hst _]|[Hst _]]]); rewrite Hst;
      unfold known_status; auto. }
  destruct Hs as (_ & _ & Hj & He & _). rewrite Forall_forall in Hj.
  destruct (Hj wr) as [H1 H2]; [eapply list_elem_of_lookup_2, Hi|].
  split; [exact H1|]. split; [exact H2|]. intros Hend.
  exact (He i wr Hi Hend).
Qed.

Lemma status_moves_witness :
  ∃ w wr k wr0,
    run regrade_in_between demo_init = Some w
    ∧ journal w !! 3 = Some wr
    ∧ w_before wr = Some "pending"
    ∧ status (w_after wr) = "done"
    ∧ (k < 3)%nat ∧ journal w !! k = Some wr0
    ∧ w_id wr0 = w_id wr
    ∧ status (w_after wr0) = "processing".
Proof.
  eexists. eexists.
  lazymatch goal with
  | |- ∃ k wr0, run ?ops ?w0 = Some ?w ∧ _ !! _ = Some ?wr ∧ _ =>
    assert (Hrun : run ops w0 = Some w) by (vm_compute; reflexivity);
    assert (Hi : journal w !! 3 = Some wr) by (vm_compute; reflexivity);
    destruct (status_moves "data/math" (Some demo_plan) ops w 3 wr Hrun Hi)
      as (_ & _ & Hbegun);
    destruct Hbegun as (k & wr0 & Hk & Hl & Hid & Hst); [now left|];
    exists k, wr0; repeat split; assumption || reflexivity
  end.
Defined.

(** ** The record invariant *)

(** C6, as stated, fails.  After [twice_queued] the record is [failed] and
    still holds the result of the first run; a regrade then leaves it
    [pending] with the error of the failed run still set. *)
Lemma stale_result_and_error_counterexample :
  ∃ w r w' r',
    run twice_queued demo_init = Some w
    ∧ records w !! "17" = Some r
    ∧ status r = "failed" ∧ result r ≠ ""
    ∧ ¬ spec_invariant r
    ∧ run (twice_queued ++ [OpRegrade None]) demo_init = Some w'
    ∧ records w' !! "17" = Some r'
    ∧ status r' = "pending" ∧ error r' ≠ None
    ∧ ¬ spec_invariant r'.
Proof.
  do 4 eexists.
  split; [vm_compute; reflexivity|]. split; [vm_compute; reflexivity|].
  split; [reflexivity|]. split; [discriminate|].
  split. { intros (_ & [Hr _] & _). now discriminate Hr. }
  split; [vm_compute; reflexivity|]. split; [vm_compute; reflexivity|].
  split; [reflexivity|]. split; [discriminate|].
  intros (_ & _ & [He _]). now discriminate He.
Qed.

(** C6, amended. Every document stored or ever written has one of the four
    statuses; a [pending] one has an empty result; a [failed] one has its
    error set; a [done] one has a non-empty result as long as the grading
    model never returned an empty completion.  (Nothing clears [error], and
    a run on a record that is already [done] carries its result along.) *)
Theorem reachable_record_invariant dir cfg ops w r :
  run ops (init dir cfg) = Some w →
  (∃ rid, records w !! rid = Some r)
  ∨ (∃ wr, wr ∈ journal w ∧ w_after wr = r) →
  (status r = "pending" ∨ status r = "processing" ∨ status r = "done"
   ∨ status r = "failed")
  ∧ (status r = "pending" → result r = "")
  ∧ (status r = "failed" → error r ≠ None)
  ∧ (Forall nonempty_completions ops → status r = "done" → result r ≠ "").
Proof.
  intros Hrun Hr.
  set (Q := λ r : record,
         (status r = "pending" ∨ status r = "processing" ∨ status r = "done"
          ∨ status r = "failed")
         ∧ (status r = "pending" → result r = "")
         ∧ (status r = "failed" → error r ≠ None)
         ∧ (Forall nonempty_completions ops →
            status r = "done" → result r ≠ "")).
  assert (Hs : sound (λ wr, Q (w_after wr)) w).
  { apply (run_sound _ ops ops (init dir cfg) w); auto;
      [|apply init_sound].
    intros op wr Hop. unfold Q.
    destruct op; cbn; try easy.
    all: try (intros (_ & Hst & Hres); rewrite Hst; repeat split; auto;
              easy).
    all: intros (_ & [Hst|[[Hst Herr]|[Hst Hdone]]]); rewrite Hst;
      repeat split; auto; try easy.
    all: intros Hne _; destruct Hdone as (sent & response & Hpost & Hcontent);
      rewrite Forall_forall in Hne;
      exact (Hne _ Hop _ _ _ Hpost Hcontent). }
  destruct Hs as (_ & Hwritten & Hall & _). rewrite Forall_forall in Hall.
  destruct Hr as [[rid Hr]|(wr & Hin & <-)]; [|exact (Hall wr Hin)].
  destruct (Hwritten rid r Hr) as (wr & Hin & <-). exact (Hall wr Hin).
Qed.

Lemma reachable_record_invariant_witness :
  ∃ w r, run twice_queued demo_init = Some w
         ∧ records w !! "17" = Some r
         ∧ status r = "failed"
         ∧ error r
           = Some ("DeepSeek API 调用失败: 500 - overloaded")
         ∧ (status r = "failed" → error r ≠ None).
Proof.
  do 2 eexists.
  split; [vm_compute; reflexivity|]. split; [vm_compute; reflexivity|].
  split; [reflexivity|]. split; [reflexivity|].
  lazymatch goal with
  | |- status ?x = _ → _ =>
    exact (proj1 (proj2 (proj2
             (reachable_record_invariant "data/math" (Some demo_plan)
                twice_queued _ x ltac:(vm_compute; reflexivity)
                ltac:(left; exists "17"; vm_compute; reflexivity)))))
  end.
Defined.

(** ** Regrade *)















(** ** The pipeline on sample records *)

Lemma unusable_images_are_omitted_witness :
  ∃ r', records (process_homework blank_env "17" uploaded).2 !! "17"
        = Some r'
        ∧ status r' = "failed"
        ∧ error r' = Some "OCR 未识别到任何文字内容".
Proof.
  destruct (proj2 (proj2 (unusable_images_are_omitted
                            blank_env uploaded "17" uploaded_record demo_plan)))
    as (_ & r' & Hr' & Hst & Herr & _).
  - vm_compute. reflexivity.
  - reflexivity.
  - reflexivity.
  - intros i p _. right. exists ("  " +:+ nl).
    split; [reflexivity|]. now apply strip_truthy_false.
  - exists r'. auto.
Defined.

Lemma graded_record_holds_sections_and_completion_witness :
  ∃ r', records (process_homework echo_env "17" uploaded).2 !! "17" = Some r'
        ∧ status r' = "done"
        ∧ ocr_text r'
          = Some ("【图片 1】" +:+ nl +:+ "2+2=4" +:+ nl +:+ nl
                    +:+ "【图片 2】" +:+ nl +:+ "3+3=6")
        ∧ result r'
          = "Grade it" +:+ nl +:+ nl +:+ "【学生作业内容】" +:+ nl
              +:+ "【图片 1】" +:+ nl +:+ "2+2=4" +:+ nl +:+ nl
              +:+ "【图片 2】" +:+ nl +:+ "3+3=6" +:+ nl +:+ "Grade: A".
Proof.
  destruct (graded_record_holds_sections_and_completion
              echo_env uploaded "17" uploaded_record demo_plan
              {| status_code := 200; text := "";
                 content :=
                   inr ("Grade it" +:+ nl +:+ nl +:+ "【学生作业内容】" +:+ nl
                          +:+ "【图片 1】" +:+ nl +:+ "2+2=4" +:+ nl +:+ nl
                          +:+ "【图片 2】" +:+ nl +:+ "3+3=6" +:+ nl
                          +:+ "Grade: A") |}
              ("Grade it" +:+ nl +:+ nl +:+ "【学生作业内容】" +:+ nl
                 +:+ "【图片 1】" +:+ nl +:+ "2+2=4" +:+ nl +:+ nl
                 +:+ "【图片 2】" +:+ nl +:+ "3+3=6" +:+ nl +:+ "Grade: A"))
    as (r' & Hr' & Hst & Hres & Hocr & _).
  - vm_compute. reflexivity.
  - reflexivity.
  - reflexivity.
  - discriminate.
  - vm_compute. discriminate.
  - vm_compute. reflexivity.
  - reflexivity.
  - reflexivity.
  - exists r'. split; [exact Hr'|]. split; [exact Hst|]. split.
    + rewrite Hocr. vm_compute. reflexivity.
    + exact Hres.
Defined.

Lemma grading_failure_keeps_result_and_ocr_text_witness :
  ∃ r', records (process_homework down_env "17" uploaded).2 !! "17" = Some r'
        ∧ status r' = "failed"
        ∧ error r' = Some "DeepSeek API 调用失败: 500 - overloaded"
        ∧ result r' = ""
        ∧ ocr_text r' = None.
Proof.
  destruct (grading_failure_keeps_result_and_ocr_text
              down_env uploaded "17" uploaded_record demo_plan
              {| status_code := 500; text := "overloaded";
                 content := inl (Raise OtherError "no body") |})
    as (r' & Hr' & Hst & Herr & Hres & _ & Hocr).
  - vm_compute. reflexivity.
  - reflexivity.
  - reflexivity.
  - discriminate.
  - vm_compute. discriminate.
  - reflexivity.
  - vm_compute. discriminate.
  - exists r'. split; [exact Hr'|]. split; [exact Hst|]. split; [|split].
    + rewrite Herr. vm_compute. reflexivity.
    + exact Hres.
    + exact Hocr.
Defined.

(** C3, as stated, fails: [result] does not always remain empty.  After an
    upload and a regrade two runs are queued; the first ends [done], the
    second meets a grading model that answers 500 and ends [failed], and
    the record keeps the result and the text of the first. *)
Lemma failed_run_keeps_earlier_result_counterexample :
  ∃ w0 w r,
    run [OpUpload "17" "amy" [jpg]; OpRegrade (Some ["17"]);
         OpProcess "17" echo_env] demo_init = Some w0
    ∧ exec (OpProcess "17" down_env) w0 = Some w
    ∧ (∀ sent, ∃ response,
         requests_post down_env sent = inr response
         ∧ status_code response = 500)
    ∧ records w !! "17" = Some r
    ∧ status r = "failed"
    ∧ error r = Some "DeepSeek API 调用失败: 500 - overloaded"
    ∧ result r ≠ ""
    ∧ ocr_text r ≠ None.
Proof.
  do 3 eexists.
  split; [vm_compute; reflexivity|]. split; [vm_compute; reflexivity|].
  split; [intros sent; eexists; split; reflexivity|].
  split; [vm_compute; reflexivity|].
  split; [reflexivity|]. split; [reflexivity|]. split; discriminate.
Qed.

(** An image whose recognition raised leaves an entry in the list, whatever
    the other images do: the list is then not empty and the
    no-recognised-text error is not raised. *)
Lemma raised_recognition_fills_the_list env files idx p rest acc e :
  p ∈ files →
  recognize env idx p = inl e →
  ocr_loop env files idx (p :: rest) acc ≠ [].
Proof.
  intros Hin He. rewrite ocr_loop_contributions. cbn [contributions].
  unfold contribution. rewrite bool_decide_eq_true_2, He by exact Hin.
  intros Hnil. apply app_eq_nil in Hnil as [_ Hnil]. discriminate Hnil.
Qed.

(** C2: the code at a record whose only image raises in recognition.  The
    placeholder is itself an entry of [recognized_texts], so the list is not
    empty, the grading model is called, and the record ends [done] with the
    placeholder as its [ocr_text] and no error. *)
Lemma all_images_raise_ends_done :
  ∃ w r,
    run [OpUpload "17" "amy" [jpg]; OpProcess "17" raising_env] demo_init
    = Some w
    ∧ records w !! "17" = Some r
    ∧ status r = "done"
    ∧ result r = "B"
    ∧ ocr_text r = Some ("【图片 1】" +:+ nl +:+ "(识别失败: timed out)")
    ∧ error r = None.
Proof.
  do 2 eexists. split; [vm_compute; reflexivity|].
  split; [vm_compute; reflexivity|]. repeat split.
Qed.

(** ** The OCR adapters *)

(** The library functions behind the signature, on published test
    vectors (FIPS 180-4, RFC 4231). *)
Example sha256_abc :
  hexdigest (sha256 (encode_utf8 "abc"))
  = "ba7816bf8f01cfea414140de5dae2223b00361a396177a9cb410ff61f20015ad".
Proof. vm_compute. reflexivity. Qed.

Example hmac_sha256_rfc4231_case2 :
  hexdigest (hmac_sha256 (encode_utf8 "Jefe")
               (encode_utf8 "what do ya want for nothing?"))
  = "5bdcc146bf60754e6a042426089575c75a003f089d2739839dec58b964ec3843".
Proof. vm_compute. reflexivity. Qed.

Example json_dumps_sample :
  json_dumps [("ImageBase64", "aGVsbG8=")]
  = "{" +:+ dquote +:+ "ImageBase64" +:+ dquote +:+ ": " +:+ dquote
      +:+ "aGVsbG8=" +:+ dquote +:+ "}".
Proof. vm_compute. reflexivity. Qed.

Example json_dumps_escapes :
  json_dumps [("k", "中" +:+ nl)]
  = "{" +:+ dquote +:+ "k" +:+ dquote +:+ ": " +:+ dquote
      +:+ backslash +:+ "u4e2d" +:+ backslash +:+ "n" +:+ dquote +:+ "}".
Proof. vm_compute. reflexivity. Qed.

Example gmtime_date_samples :
  map gmtime_date [0; 951782400; 1551113065; 1709251200]%Z
  = ["1970-01-01"; "2000-02-29"; "2019-02-25"; "2024-03-01"].
Proof. vm_compute. reflexivity. Qed.

Example sign_sample :
  _sign (demo_tencent "ap-guangzhou") [("ImageBase64", "aGVsbG8=")]
    1551113065
  = inr ("TC3-HMAC-SHA256 Credential=AKIDEXAMPLE/2019-02-25/ocr/tc3_request, "
           +:+ "SignedHeaders=content-type;host, Signature="
           +:+ "f838b65887b48b9ba22ee10bd5e651da23c2334bab62a5f404e1a4bf530a6b78").
Proof. vm_compute. reflexivity. Qed.

(** C8. The signature is a function of the request parameters, the
    timestamp and the secret id and key (with the endpoint and service every
    adapter is built with): two adapters that agree on these give the same
    Authorization string, whatever else differs (the region), and that
    string is the credential scope with the signature of the string to
    sign under the key derived by date, then service, then request. *)
Theorem sign_is_deterministic (a1 a2 : TencentOCRAdapter) params timestamp :
  secret_id a1 = secret_id a2 →
  secret_key a1 = secret_key a2 →
  endpoint a1 = endpoint a2 →
  service a1 = service a2 →
  _sign a1 params timestamp = _sign a2 params timestamp
  ∧ ∀ sid key,
      secret_id a1 = Some sid → secret_key a1 = Some key →
      let date := gmtime_date timestamp in
      let scope := date +:+ "/" +:+ service a1 +:+ "/tc3_request" in
      let canonical_request :=
        "POST" +:+ nl +:+ "/" +:+ nl +:+ "" +:+ nl
          +:+ ("content-type:application/json" +:+ nl +:+ "host:"
                 +:+ endpoint a1 +:+ nl)
          +:+ nl +:+ "content-type;host" +:+ nl
          +:+ hexdigest (sha256 (encode_utf8 (json_dumps params))) in
      let string_to_sign :=
        "TC3-HMAC-SHA256" +:+ nl +:+ str_of_Z timestamp +:+ nl +:+ scope
          +:+ nl +:+ hexdigest (sha256 (encode_utf8 canonical_request)) in
      let secret_date :=
        hmac_sha256 (encode_utf8 ("TC3" +:+ key)) (encode_utf8 date) in
      let secret_service :=
        hmac_sha256 secret_date (encode_utf8 (service a1)) in
      let secret_signing :=
        hmac_sha256 secret_service (encode_utf8 "tc3_request") in
      _sign a2 params timestamp
      = inr ("TC3-HMAC-SHA256" +:+ " " +:+ "Credential=" +:+ sid +:+ "/"
               +:+ scope +:+ ", " +:+ "SignedHeaders=" +:+ "content-type;host"
               +:+ ", " +:+ "Signature="
               +:+ hexdigest
                     (hmac_sha256 secret_signing
                        (encode_utf8 string_to_sign))).
Proof.
  intros Hid Hkey Hend Hsvc. unfold _sign, _hmac_sha256.
  rewrite <- Hid, <- Hkey, <- Hend, <- Hsvc. split; [reflexivity|].
  intros sid key -> ->. reflexivity.
Qed.

Lemma sign_is_deterministic_witness :
  _sign (demo_tencent "ap-guangzhou") [("ImageBase64", "aGVsbG8=")] 1551113065
  = _sign (demo_tencent "ap-shanghai") [("ImageBase64", "aGVsbG8=")] 1551113065.
Proof.
  apply (sign_is_deterministic (demo_tencent "ap-guangzhou")
           (demo_tencent "ap-shanghai")); reflexivity.
Defined.

(** C9, as stated, fails: the factory lower-cases the name first, so a name
    that is none of the three strings can still select an adapter. *)
Lemma factory_folds_case_counterexample :
  ("Tencent" ∉ provider_names)
  ∧ create_ocr_adapter "Tencent" ∅
    = inr (Tencent (TencentOCRAdapter_init None None "ap-guangzhou")).
Proof.
  split; [|vm_compute; reflexivity].
  unfold provider_names. intros H.
  repeat (apply elem_of_cons in H as [H|H]; [discriminate H|]).
  now apply elem_of_nil in H.
Qed.

(** C9, amended. A provider name whose lower-cased form is none of
    [tencent], [baidu], [ali] makes the factory raise [ValueError], and no
    adapter is returned; a name whose lower-cased form is one of them gives
    an adapter.  The Ali adapter's [recognize] raises [NotImplementedError]
    on every input and never returns text. *)
Theorem factory_rejects_unknown_providers provider kwargs :
  (lower provider ∉ provider_names) →
  (∃ msg, create_ocr_adapter provider kwargs = inl (Raise ValueError msg))
  ∧ (∀ adapter, create_ocr_adapter provider kwargs ≠ inr adapter)
  ∧ (∀ other, lower other ∈ provider_names →
       ∃ adapter, create_ocr_adapter other kwargs = inr adapter)
  ∧ (∀ self timestamp answer image_base64,
       OcrAdapters.recognize (Ali self) timestamp answer image_base64
       = inl (Raise NotImplementedError "阿里云 OCR 适配器待实现")
       ∧ ∀ text,
           OcrAdapters.recognize (Ali self) timestamp answer image_base64
           ≠ inr text).
Proof.
  intros Hout. unfold provider_names in *.
  assert (Hraise : ∃ msg, create_ocr_adapter provider kwargs
                          = inl (Raise ValueError msg)).
  { unfold create_ocr_adapter.
    rewrite !bool_decide_eq_false_2; [eauto|..];
      intros Heq; apply Hout; rewrite Heq; repeat constructor. }
  split; [exact Hraise|]. split; [|split].
  - destruct Hraise as [msg ->]. discriminate.
  - intros other Hin. unfold create_ocr_adapter.
    repeat case_bool_decide; eauto.
    repeat (apply elem_of_cons in Hin as [Hin|Hin]; [congruence|]).
    now apply elem_of_nil in Hin.
  - intros self timestamp answer image. split; [reflexivity|discriminate].
Qed.

Lemma factory_rejects_unknown_providers_witness :
  ∃ msg, create_ocr_adapter "Google" ∅ = inl (Raise ValueError msg).
Proof.
  refine (proj1 (factory_rejects_unknown_providers "Google" ∅ _)).
  unfold provider_names. intros H.
  repeat (apply elem_of_cons in H as [H|H]; [discriminate H|]).
  now apply elem_of_nil in H.
Defined.
